(** * Optimization triangle (src/cpp-wasm/optimization_triangle.cpp)

    A shallow embedding of the barycentric-marker widget: the [Triangle]
    geometry class, the three process-wide globals and the functions exported
    to JavaScript.

    The program computes on C++ [double]s.  Its text is embedded once, over an
    interface [Double] of the operations the source applies to a [double], and
    read under two interpretations:
    - [float]: IEEE 754 binary64 (the kernel's primitive floats), which is what
      the compiled program runs on, NaN, infinities and signed zeros included.
      Every operation rounds to nearest even on its own, as a WebAssembly
      [f64] operation does: no fused multiply-add, no wider intermediate;
    - [R]: the real numbers, which is what the geometry means once rounding is
      left out.

    Statements that hold whatever the arithmetic are made for every
    interpretation; statements about what a run returns are made on [float];
    statements of plane geometry are made on [R], and on [float] where they
    survive rounding. *)

From Stdlib Require Import ZArith Bool List Lia.
From Stdlib Require Import Reals Lra Psatz.
From Stdlib Require Import Floats.
Import ListNotations.

Set Warnings "-inexact-float".

(** ** The arithmetic of a [double] *)

Class Double (F : Type) : Type := {
  dadd : F -> F -> F;          (* a + b *)
  dsub : F -> F -> F;          (* a - b *)
  dmul : F -> F -> F;          (* a * b *)
  ddiv : F -> F -> F;          (* a / b *)
  dlt : F -> F -> bool;        (* a < b *)
  dle : F -> F -> bool;        (* a <= b *)
  deq : F -> F -> bool;        (* a == b, used to watch divisors only *)
  dabs : F -> F;               (* std::abs *)
  dsqrt : F -> F;              (* std::sqrt *)
  of_int : Z -> F;             (* conversion of an int *)
  lit_0_001 : F;               (* the literal 0.001 *)
  lit_0_33 : F;                (* the literal 0.33 *)
  lit_0_34 : F                 (* the literal 0.34 *)
}.

Declare Scope double_scope.
Delimit Scope double_scope with D.
Infix "+" := dadd : double_scope.
Infix "-" := dsub : double_scope.
Infix "*" := dmul : double_scope.
Infix "/" := ddiv : double_scope.
Infix "<?" := dlt : double_scope.
Infix "<=?" := dle : double_scope.
Notation "a >? b" := (dlt b a) : double_scope.

(** ** The program *)

Section Program.

Context {F : Type} `{Double F}.
Local Open Scope double_scope.

(** The literals [0.0], [1.0] and [2.0]; [lit_0] is also the [int] 0 where a
    [double] is expected ([d1 < 0], [return 0]). *)
Definition lit_0 : F := of_int 0.
Definition lit_1 : F := of_int 1.
Definition lit_2 : F := of_int 2.

(** [std::min(a, b)] is [(b < a) ? b : a] and [std::max(a, b)] is
    [(a < b) ? b : a]. *)
Definition std_min (a b : F) : F := if b <? a then b else a.
Definition std_max (a b : F) : F := if a <? b then b else a.

Record Point2D : Type := mkPoint2D { x : F; y : F }.

Record BarycentricCoord : Type := mkBarycentricCoord {
  performance : F;
  velocity : F;
  adaptability : F
}.

(** *** class Triangle *)

Record Triangle : Type := mkTriangle { top : Point2D; left : Point2D; right : Point2D }.

Definition padding : Z := 80.

(** [Triangle(int canvasWidth, int canvasHeight)]: the subtractions are done
    on [int]s, the division by [2.0] on [double]s.  The program calls it with
    700 and 550 only, far from the bounds of an [int]. *)
Definition newTriangle (canvasWidth canvasHeight : Z) : Triangle :=
  {| top := mkPoint2D (of_int canvasWidth / lit_2) (of_int padding);
     left := mkPoint2D (of_int padding) (of_int (canvasHeight - padding));
     right := mkPoint2D (of_int (canvasWidth - padding)) (of_int (canvasHeight - padding)) |}.

Section Methods.

Variable this : Triangle.

Definition baryToCartesian (bc : BarycentricCoord) : Point2D :=
  mkPoint2D
    (performance bc * x (top this) + velocity bc * x (left this)
     + adaptability bc * x (right this))
    (performance bc * y (top this) + velocity bc * y (left this)
     + adaptability bc * y (right this)).

Definition signedArea (p1 p2 p3 : Point2D) : F :=
  (x p1 - x p3) * (y p2 - y p3) - (x p2 - x p3) * (y p1 - y p3).

Definition isInside (point : Point2D) : bool :=
  let d1 := signedArea point (top this) (left this) in
  let d2 := signedArea point (left this) (right this) in
  let d3 := signedArea point (right this) (top this) in
  let hasNeg := (d1 <? lit_0) || (d2 <? lit_0) || (d3 <? lit_0) in
  let hasPos := (d1 >? lit_0) || (d2 >? lit_0) || (d3 >? lit_0) in
  negb (hasNeg && hasPos).

Definition projectPointOntoSegment (p a b : Point2D) : Point2D :=
  let dx := x b - x a in
  let dy := y b - y a in
  let lengthSq := dx * dx + dy * dy in
  if lengthSq <? lit_0_001 then a
  else
    let t := ((x p - x a) * dx + (y p - y a) * dy) / lengthSq in
    let t := std_max lit_0 (std_min lit_1 t) in
    mkPoint2D (x a + t * dx) (y a + t * dy).

(** The lambda [distSq] of [clampToTriangle]. *)
Definition distSq (a b : Point2D) : F :=
  let dx := x b - x a in
  let dy := y b - y a in
  dx * dx + dy * dy.

Definition clampToTriangle (point : Point2D) : Point2D :=
  if isInside point then point
  else
    let proj1 := projectPointOntoSegment point (top this) (left this) in
    let proj2 := projectPointOntoSegment point (left this) (right this) in
    let proj3 := projectPointOntoSegment point (right this) (top this) in
    let d1 := distSq point proj1 in
    let d2 := distSq point proj2 in
    let d3 := distSq point proj3 in
    if (d1 <=? d2) && (d1 <=? d3) then proj1
    else if d2 <=? d3 then proj2
    else proj3.

Definition cartesianToBary (point : Point2D) : BarycentricCoord :=
  let clamped := clampToTriangle point in
  let totalArea := signedArea (top this) (left this) (right this) in
  let totalArea := if dabs totalArea <? lit_0_001 then lit_1 else totalArea in
  let perf := signedArea clamped (left this) (right this) / totalArea in
  let vel := signedArea clamped (right this) (top this) / totalArea in
  let adapt := signedArea clamped (top this) (left this) / totalArea in
  mkBarycentricCoord
    (std_max lit_0 (std_min lit_1 perf))
    (std_max lit_0 (std_min lit_1 vel))
    (std_max lit_0 (std_min lit_1 adapt)).

Definition getTop : Point2D := top this.
Definition getLeft : Point2D := left this.
Definition getRight : Point2D := right this.

(** *** The same methods with every division watched

    [checked_div] is the division of the source that gives up ([None]) when the
    divisor compares equal to zero; the three methods that divide, or call a
    method that divides, are repeated over it, statement by statement. *)

Definition checked_div (a b : F) : option F :=
  if deq b lit_0 then None else Some (a / b).

Definition bind {A B : Type} (m : option A) (k : A -> option B) : option B :=
  match m with
  | Some a => k a
  | None => None
  end.

Local Notation "'do' v <- m ; k" := (bind m (fun v => k))
  (at level 10, v name, m at level 100, k at level 200).

Definition projectPointOntoSegment_checked (p a b : Point2D) : option Point2D :=
  let dx := x b - x a in
  let dy := y b - y a in
  let lengthSq := dx * dx + dy * dy in
  if lengthSq <? lit_0_001 then Some a
  else
    do t <- checked_div ((x p - x a) * dx + (y p - y a) * dy) lengthSq;
    let t := std_max lit_0 (std_min lit_1 t) in
    Some (mkPoint2D (x a + t * dx) (y a + t * dy)).

Definition clampToTriangle_checked (point : Point2D) : option Point2D :=
  if isInside point then Some point
  else
    do proj1 <- projectPointOntoSegment_checked point (top this) (left this);
    do proj2 <- projectPointOntoSegment_checked point (left this) (right this);
    do proj3 <- projectPointOntoSegment_checked point (right this) (top this);
    let d1 := distSq point proj1 in
    let d2 := distSq point proj2 in
    let d3 := distSq point proj3 in
    if (d1 <=? d2) && (d1 <=? d3) then Some proj1
    else if d2 <=? d3 then Some proj2
    else Some proj3.

Definition cartesianToBary_checked (point : Point2D) : option BarycentricCoord :=
  do clamped <- clampToTriangle_checked point;
  let totalArea := signedArea (top this) (left this) (right this) in
  let totalArea := if dabs totalArea <? lit_0_001 then lit_1 else totalArea in
  do perf <- checked_div (signedArea clamped (left this) (right this)) totalArea;
  do vel <- checked_div (signedArea clamped (right this) (top this)) totalArea;
  do adapt <- checked_div (signedArea clamped (top this) (left this)) totalArea;
  Some (mkBarycentricCoord
          (std_max lit_0 (std_min lit_1 perf))
          (std_max lit_0 (std_min lit_1 vel))
          (std_max lit_0 (std_min lit_1 adapt))).

End Methods.

(** *** Global state *)

Record State : Type := mkState {
  triangle : option Triangle;         (* nullptr is None *)
  dotPosition : BarycentricCoord;
  isDragging : bool
}.

Definition CANVAS_WIDTH : Z := 700.
Definition CANVAS_HEIGHT : Z := 550.

(** The globals as the static initialisers leave them. *)
Definition initial : State :=
  {| triangle := None;
     dotPosition := mkBarycentricCoord lit_0_33 lit_0_33 lit_0_34;
     isDragging := false |}.

(** *** Exported functions *)

Definition init (s : State) : State :=
  {| triangle := Some (newTriangle CANVAS_WIDTH CANVAS_HEIGHT);
     dotPosition := dotPosition s;
     isDragging := isDragging s |}.

Definition cleanup (s : State) : State :=
  {| triangle := None; dotPosition := dotPosition s; isDragging := isDragging s |}.

Definition handleMouseDown (mouseX mouseY : F) (s : State) : State :=
  match triangle s with
  | None => s
  | Some t =>
      let mousePos := mkPoint2D mouseX mouseY in
      let dotPos := baryToCartesian t (dotPosition s) in
      let dx := x mousePos - x dotPos in
      let dy := y mousePos - y dotPos in
      let distance := dsqrt (dx * dx + dy * dy) in
      if distance <? of_int 15 then
        {| triangle := triangle s; dotPosition := dotPosition s; isDragging := true |}
      else if isInside t mousePos then
        {| triangle := triangle s;
           dotPosition := cartesianToBary t mousePos;
           isDragging := true |}
      else s
  end.

Definition handleMouseMove (mouseX mouseY : F) (s : State) : State :=
  match triangle s with
  | None => s
  | Some t =>
      if negb (isDragging s) then s
      else
        let mousePos := mkPoint2D mouseX mouseY in
        {| triangle := triangle s;
           dotPosition := cartesianToBary t mousePos;
           isDragging := isDragging s |}
  end.

Definition handleMouseUp (s : State) : State :=
  {| triangle := triangle s; dotPosition := dotPosition s; isDragging := false |}.

Definition getDotX (s : State) : F :=
  match triangle s with
  | None => lit_0
  | Some t => x (baryToCartesian t (dotPosition s))
  end.

Definition getDotY (s : State) : F :=
  match triangle s with
  | None => lit_0
  | Some t => y (baryToCartesian t (dotPosition s))
  end.

Definition getTriangleTopX (s : State) : F :=
  match triangle s with Some t => x (getTop t) | None => lit_0 end.

Definition getTriangleTopY (s : State) : F :=
  match triangle s with Some t => y (getTop t) | None => lit_0 end.

Definition getTriangleLeftX (s : State) : F :=
  match triangle s with Some t => x (getLeft t) | None => lit_0 end.

Definition getTriangleLeftY (s : State) : F :=
  match triangle s with Some t => y (getLeft t) | None => lit_0 end.

Definition getTriangleRightX (s : State) : F :=
  match triangle s with Some t => x (getRight t) | None => lit_0 end.

Definition getTriangleRightY (s : State) : F :=
  match triangle s with Some t => y (getRight t) | None => lit_0 end.

Definition getPerformance (s : State) : F := performance (dotPosition s).
Definition getVelocity (s : State) : F := velocity (dotPosition s).
Definition getAdaptability (s : State) : F := adaptability (dotPosition s).

(** *** Sequences of calls from the host page *)

Inductive Call : Type :=
| CallInit
| CallCleanup
| CallMouseDown (mouseX mouseY : F)
| CallMouseMove (mouseX mouseY : F)
| CallMouseUp.

Definition step (s : State) (c : Call) : State :=
  match c with
  | CallInit => init s
  | CallCleanup => cleanup s
  | CallMouseDown mouseX mouseY => handleMouseDown mouseX mouseY s
  | CallMouseMove mouseX mouseY => handleMouseMove mouseX mouseY s
  | CallMouseUp => handleMouseUp s
  end.

Definition run (calls : list Call) (s : State) : State := fold_left step calls s.

(** *** Vocabulary of the specification *)

(** A weight lies in [0,1], by the program's own comparison. *)
Definition in_unit (v : F) : bool := (lit_0 <=? v) && (v <=? lit_1).

Definition bary_in_unit (bc : BarycentricCoord) : bool :=
  in_unit (performance bc) && in_unit (velocity bc) && in_unit (adaptability bc).

(** The Euclidean distance between two points, as [handleMouseDown] computes
    it. *)
Definition distance (a b : Point2D) : F :=
  let dx := x a - x b in
  let dy := y a - y b in
  dsqrt (dx * dx + dy * dy).

(** The point of the line through [a] and [b] at parameter [t]. *)
Definition along (a b : Point2D) (t : F) : Point2D :=
  mkPoint2D (x a + t * (x b - x a)) (y a + t * (y b - y a)).

(** [p] is a point of the segment from [a] to [b]. *)
Definition on_segment (a b p : Point2D) : Prop :=
  exists t : F, in_unit t = true /\ p = along a b t.

(** [p] is a point of one of the three edges, in the order of the source. *)
Definition on_boundary (t : Triangle) (p : Point2D) : Prop :=
  on_segment (top t) (left t) p \/
  on_segment (left t) (right t) p \/
  on_segment (right t) (top t) p.

(** Two triples of weights differ by at most [tol] in each component. *)
Definition weights_close (tol : F) (a b : BarycentricCoord) : bool :=
  (dabs (performance a - performance b) <=? tol)
  && (dabs (velocity a - velocity b) <=? tol)
  && (dabs (adaptability a - adaptability b) <=? tol).

(** The weights [i]%, [j]% and the rest of 100%. *)
Definition percentages (i j : nat) : BarycentricCoord :=
  mkBarycentricCoord
    (of_int (Z.of_nat i) / of_int 100)
    (of_int (Z.of_nat j) / of_int 100)
    (of_int (Z.of_nat (100 - i - j)) / of_int 100).

(** [cartesianToBary] after [baryToCartesian]. *)
Definition round_trip_of (t : Triangle) (bc : BarycentricCoord) : BarycentricCoord :=
  cartesianToBary t (baryToCartesian t bc).

(** The points of the three edges of the 700 by 550 triangle whose
    coordinates are multiples of 1/16: 481 on each slanted edge, 8641 on the
    horizontal one. *)
Definition sixteenths (n : Z) : F := of_int n / of_int 16.

Definition top_left_sample (k : Z) : Point2D :=
  mkPoint2D (sixteenths (5600 - 9 * k)) (sixteenths (1280 + 13 * k)).

Definition left_right_sample (k : Z) : Point2D :=
  mkPoint2D (sixteenths (1280 + k)) (of_int 470).

Definition right_top_sample (k : Z) : Point2D :=
  mkPoint2D (sixteenths (9920 - 9 * k)) (sixteenths (7520 - 13 * k)).

(** [q] is a point computed for the segment from [a] to [b]: its start, or
    the point at a parameter in [0,1]. *)
Definition segment_point (a b q : Point2D) : Prop :=
  q = a \/ exists t : F, in_unit t = true /\ q = along a b t.

Definition edge_point (t : Triangle) (q : Point2D) : Prop :=
  segment_point (top t) (left t) q \/
  segment_point (left t) (right t) q \/
  segment_point (right t) (top t) q.

(** [q] is the one of [proj1], [proj2], [proj3] nearest to [p] (by squared
    distance), the earlier one when two are equally near. *)
Definition nearest_first (p proj1 proj2 proj3 q : Point2D) : Prop :=
  let d1 := distSq p proj1 in
  let d2 := distSq p proj2 in
  let d3 := distSq p proj3 in
  (q = proj1 /\ (d1 <=? d2) = true /\ (d1 <=? d3) = true) \/
  (q = proj2 /\ (d2 <? d1) = true /\ (d2 <=? d3) = true) \/
  (q = proj3 /\ (d3 <? d1) = true /\ (d3 <? d2) = true).

(** What [clampToTriangle] is to return at [p]. *)
Definition clamp_spec (t : Triangle) (p : Point2D) : Prop :=
  if isInside t p then clampToTriangle t p = p
  else
    nearest_first p
      (projectPointOntoSegment p (top t) (left t))
      (projectPointOntoSegment p (left t) (right t))
      (projectPointOntoSegment p (right t) (top t))
      (clampToTriangle t p).

(** *** Vocabulary of the further properties *)

(** The guard of [cartesianToBary] fires: the area is taken for zero and
    replaced by [1.0]. *)
Definition area_guard (t : Triangle) : bool :=
  dabs (signedArea (top t) (left t) (right t)) <? lit_0_001.

(** The guard of [projectPointOntoSegment] fires: the segment from [a] to [b]
    is taken for a point. *)
Definition edge_guard (a b : Point2D) : bool := distSq a b <? lit_0_001.

Definition weight_sum (bc : BarycentricCoord) : F :=
  performance bc + velocity bc + adaptability bc.

(** The triangle that [init] installs. *)
Definition program_triangle : Triangle := newTriangle CANVAS_WIDTH CANVAS_HEIGHT.

Definition triangle_known (s : State) : Prop :=
  triangle s = None \/ triangle s = Some program_triangle.

Definition is_init (c : Call) : bool :=
  match c with CallInit => true | _ => false end.

(** A run of pointer moves through the given positions. *)
Definition moves (ms : list (F * F)) : list Call :=
  map (fun m => CallMouseMove (fst m) (snd m)) ms.

(** [handleMouseDown] takes the press: it is within the grab radius of the
    marker, or inside the triangle. *)
Definition press_taken (t : Triangle) (s : State) (mouseX mouseY : F) : bool :=
  (distance (mkPoint2D mouseX mouseY) (baryToCartesian t (dotPosition s)) <? of_int 15)
  || isInside t (mkPoint2D mouseX mouseY).

End Program.

Arguments Point2D F : clear implicits.
Arguments BarycentricCoord F : clear implicits.
Arguments Triangle F : clear implicits.
Arguments State F : clear implicits.
Arguments Call F : clear implicits.

(** ** The two interpretations *)

(** An [int] as a binary64: exact below 2^53 in absolute value. *)
Definition float_of_int (z : Z) : float :=
  match z with
  | Z0 => 0%float
  | Zpos _ => PrimFloat.of_uint63 (Uint63.of_Z z)
  | Zneg p => (- PrimFloat.of_uint63 (Uint63.of_Z (Zpos p)))%float
  end.

#[export] Instance Double_float : Double float := {|
  dadd := PrimFloat.add;
  dsub := PrimFloat.sub;
  dmul := PrimFloat.mul;
  ddiv := PrimFloat.div;
  dlt := PrimFloat.ltb;
  dle := PrimFloat.leb;
  deq := PrimFloat.eqb;
  dabs := PrimFloat.abs;
  dsqrt := PrimFloat.sqrt;
  of_int := float_of_int;
  lit_0_001 := 0.001%float;
  lit_0_33 := 0.33%float;
  lit_0_34 := 0.34%float
|}.

Definition Rltb (a b : R) : bool := if Rlt_dec a b then true else false.
Definition Rleb (a b : R) : bool := if Rle_dec a b then true else false.
Definition Reqb (a b : R) : bool := if Req_dec_T a b then true else false.

#[export] Instance Double_R : Double R := {|
  dadd := Rplus;
  dsub := Rminus;
  dmul := Rmult;
  ddiv := Rdiv;
  dlt := Rltb;
  dle := Rleb;
  deq := Reqb;
  dabs := Rabs;
  dsqrt := R_sqrt.sqrt;
  of_int := IZR;
  lit_0_001 := (1 / 1000)%R;
  lit_0_33 := (33 / 100)%R;
  lit_0_34 := (34 / 100)%R
|}.

(** ** What the proofs use of the arithmetic

    The facts about comparisons and the three literals below hold of binary64
    (NaN, infinities and signed zeros included) and of the reals alike. *)

Record DoubleLaws (F : Type) `{Double F} : Prop := {
  dlt_dle : forall a b : F, dlt a b = true -> dle a b = true;
  dle_0_0 : dle (lit_0 : F) lit_0 = true;
  dle_0_1 : dle (lit_0 : F) lit_1 = true;
  dle_1_1 : dle (lit_1 : F) lit_1 = true;
  lit_0_33_in_unit : in_unit (lit_0_33 : F) = true;
  lit_0_34_in_unit : in_unit (lit_0_34 : F) = true;
  zero_lt_eps : forall a : F, deq a lit_0 = true -> dlt a lit_0_001 = true;
  zero_abs_lt_eps : forall a : F, deq a lit_0 = true -> dlt (dabs a) lit_0_001 = true;
  one_not_zero : deq (lit_1 : F) lit_0 = false;
  (* [a <= a] fails of a NaN only; the other values are totally ordered *)
  dle_total : forall a b : F,
    dle a a = true -> dle b b = true -> dle a b = false -> dlt b a = true;
  dle_trans : forall a b c : F, dle a b = true -> dle b c = true -> dle a c = true;
  dlt_trans : forall a b c : F, dlt a b = true -> dlt b c = true -> dlt a c = true;
  dlt_asym : forall a b : F, dlt a b = true -> dlt b a = false
}.


(** ** binary64: classes of values

    On the specification of binary64 ([spec_float]): a NaN; a zero or a finite
    number; a value that is not negative; a zero or a NaN; a value of sign [s]
    or a zero. *)

Definition SFnan (a : spec_float) : bool :=
  match a with S754_nan => true | _ => false end.
Definition SFfin (a : spec_float) : bool :=
  match a with S754_zero _ | S754_finite _ _ _ => true | _ => false end.
Definition SFnonneg (a : spec_float) : bool :=
  match a with
  | S754_zero _ | S754_infinity false | S754_finite false _ _ => true
  | _ => false
  end.
Definition SFzn (a : spec_float) : bool :=
  match a with S754_zero _ | S754_nan => true | _ => false end.
(** has the sign [s], or is a zero *)
Definition SFsigned (s : bool) (a : spec_float) : bool :=
  match a with
  | S754_zero _ => true
  | S754_infinity s' | S754_finite s' _ _ => Bool.eqb s s'
  | S754_nan => false
  end.

(** The same on primitive floats. *)

Definition fnan (a : float) : bool := SFnan (Prim2SF a).
Definition ffin (a : float) : bool := SFfin (Prim2SF a).
Definition fzn (a : float) : bool := SFzn (Prim2SF a).

(** A zero or a positive finite number. *)
Definition fpos (a : float) : bool := SFfin (Prim2SF a) && SFnonneg (Prim2SF a).

(** An edge whose end points, differences and end-point sums are finite. *)
Definition edge_ok (a b : Point2D float) : bool :=
  let dx := (x b - x a)%float in
  let dy := (y b - y a)%float in
  ffin (x a) && ffin (y a) && ffin dx && ffin dy
  && ffin (x a + lit_0 * dx) && ffin (x a + lit_1 * dx)
  && ffin (y a + lit_0 * dy) && ffin (y a + lit_1 * dy).

(** A triangle with three such edges. *)
Definition triangle_ok (t : Triangle float) : bool :=
  edge_ok (top t) (left t) && edge_ok (left t) (right t) && edge_ok (right t) (top t).

(** ** Reals: the marker of a reachable state

    The triangle is absent or the program's, and the weights lie in [0,1] and
    sum to 1. *)
Definition marker_ok (s : State R) : Prop :=
  triangle_known s /\ bary_in_unit (dotPosition s) = true /\
  weight_sum (dotPosition s) = 1%R.

(** A triangle wound the other way than the program's, for examples. *)
Definition sample_triangle : Triangle R :=
  mkTriangle (mkPoint2D 0 0)%R (mkPoint2D 4 0)%R (mkPoint2D 0 3)%R.

(** ** Proof steps used throughout *)

(** Splits the comparisons of exponents and mantissas left in a goal about
    [SFcompare], and closes the cases by arithmetic. *)
Ltac SFcompare_cases :=
  repeat match goal with
    | |- context [Pos.compare_cont Eq ?m ?n] =>
        change (Pos.compare_cont Eq m n) with (Pos.compare m n)
    | H : context [Pos.compare_cont Eq ?m ?n] |- _ =>
        change (Pos.compare_cont Eq m n) with (Pos.compare m n) in H
    end;
  repeat match goal with
    | H : context [Z.compare ?a ?b] |- _ => destruct (Z.compare_spec a b); simpl in H
    | |- context [Z.compare ?a ?b] => destruct (Z.compare_spec a b); simpl
    | H : context [Pos.compare ?a ?b] |- _ => destruct (Pos.compare_spec a b); simpl in H
    | |- context [Pos.compare ?a ?b] => destruct (Pos.compare_spec a b); simpl
    end;
  try discriminate; try reflexivity; try lia.

(** Exposes the operations of the reals behind the interface. *)
Ltac real_ops :=
  cbn [dadd dsub dmul ddiv dlt dle deq dabs dsqrt of_int lit_0_001 lit_0_33
       lit_0_34 Double_R] in *.

(** ** binary64: rounding never yields a NaN *)

Lemma iter_pos_invariant {A : Type} (P : A -> Prop) (f : A -> A) :
  (forall a, P a -> P (f a)) -> forall p a, P a -> P (iter_pos f p a).
Proof.
  intros Hf. induction p as [p IH | p IH | ]; intros a Ha; simpl; auto.
Qed.

Lemma shr_1_nonneg (mrs : shr_record) :
  (0 <= shr_m mrs)%Z -> (0 <= shr_m (shr_1 mrs))%Z.
Proof.
  destruct mrs as [m r s]. destruct m as [ | [p | p | ] | p]; simpl; lia.
Qed.

Lemma shr_nonneg (mrs : shr_record) (e n : Z) :
  (0 <= shr_m mrs)%Z -> (0 <= shr_m (fst (shr mrs e n)))%Z.
Proof.
  intros Hm. destruct n as [ | p | p]; simpl; try exact Hm.
  apply (iter_pos_invariant (fun r => (0 <= shr_m r)%Z)); [apply shr_1_nonneg | exact Hm].
Qed.

Lemma shr_fexp_nonneg (m e : Z) (l : location) :
  (0 <= m)%Z -> (0 <= shr_m (fst (shr_fexp prec emax m e l)))%Z.
Proof.
  intros Hm. unfold shr_fexp. apply shr_nonneg.
  destruct l as [ | [ | | ]]; exact Hm.
Qed.

Lemma round_nearest_even_nonneg (m : Z) (l : location) :
  (0 <= m)%Z -> (0 <= round_nearest_even m l)%Z.
Proof.
  intros Hm. destruct l as [ | [ | | ]]; simpl; try destruct (Z.even m); lia.
Qed.

Lemma binary_round_aux_signed (sx : bool) (mx ex : Z) (lx : location) :
  (0 <= mx)%Z -> SFsigned sx (binary_round_aux prec emax sx mx ex lx) = true.
Proof.
  intros Hm. unfold binary_round_aux.
  pose proof (shr_fexp_nonneg mx ex lx Hm) as H1.
  destruct (shr_fexp prec emax mx ex lx) as [mrs' e'].
  pose proof (shr_fexp_nonneg _ e' loc_Exact
                (round_nearest_even_nonneg _ (loc_of_shr_record mrs') H1)) as H2.
  destruct (shr_fexp prec emax _ e' loc_Exact) as [mrs'' e''].
  simpl in H2. destruct (shr_m mrs'') as [ | m | m].
  - reflexivity.
  - destruct (e'' <=? emax - prec)%Z; simpl; apply Bool.eqb_reflx.
  - lia.
Qed.

Lemma binary_round_signed (sx : bool) (mx : positive) (ex : Z) :
  SFsigned sx (binary_round prec emax sx mx ex) = true.
Proof.
  unfold binary_round. destruct (shl_align _ _ _) as [mz ez].
  apply binary_round_aux_signed. lia.
Qed.

Lemma binary_normalize_not_nan (m e : Z) (szero : bool) :
  SFnan (binary_normalize prec emax m e szero) = false.
Proof.
  destruct m as [ | p | p]; simpl; [reflexivity | | ].
  - pose proof (binary_round_signed false p e) as Hs.
    destruct (binary_round prec emax false p e); simpl in *; congruence.
  - pose proof (binary_round_signed true p e) as Hs.
    destruct (binary_round prec emax true p e); simpl in *; congruence.
Qed.

Lemma SFsigned_not_nan (s : bool) (a : spec_float) : SFsigned s a = true -> SFnan a = false.
Proof. destruct a; simpl; congruence. Qed.

(** *** Multiplication *)

Lemma SFmul_fin_fin (a b : spec_float) :
  SFfin a = true -> SFfin b = true -> SFnan (SF64mul a b) = false.
Proof.
  destruct a as [sa | sa | | sa ma ea]; try discriminate;
    destruct b as [sb | sb | | sb mb eb]; try discriminate; intros _ _;
    try reflexivity.
  unfold SF64mul, SFmul.
  apply (SFsigned_not_nan (xorb sa sb)), binary_round_aux_signed. lia.
Qed.

Lemma SFmul_square (a : spec_float) :
  SFnan a = false -> SFnonneg (SF64mul a a) = true.
Proof.
  destruct a as [sa | sa | | sa ma ea]; try discriminate; intros _.
  - reflexivity.
  - simpl. now rewrite xorb_nilpotent.
  - unfold SF64mul, SFmul. rewrite xorb_nilpotent.
    assert (Hs : SFsigned false
                   (binary_round_aux prec emax false (Zpos (ma * ma)) (ea + ea) loc_Exact) = true)
      by (apply binary_round_aux_signed; lia).
    destruct (binary_round_aux prec emax false _ _ _) as [s | s | | s m e];
      simpl in *; try reflexivity; try discriminate; destruct s; simpl in *; congruence.
Qed.

(** *** Addition and subtraction *)

Lemma SFadd_fin_notnan (a b : spec_float) :
  SFfin a = true -> SFnan b = false -> SFnan (SF64add a b) = false.
Proof.
  destruct a as [sa | sa | | sa ma ea]; try discriminate;
    destruct b as [sb | sb | | sb mb eb]; try discriminate; intros _ _;
    try reflexivity.
  - destruct sa, sb; reflexivity.
  - apply binary_normalize_not_nan.
Qed.

Lemma SFadd_nonneg (a b : spec_float) :
  SFnonneg a = true -> SFnonneg b = true -> SFnan (SF64add a b) = false.
Proof.
  destruct a as [sa | [ | ] | | [ | ] ma ea]; try discriminate;
    destruct b as [sb | [ | ] | | [ | ] mb eb]; try discriminate; intros _ _;
    try reflexivity.
  - destruct sa, sb; reflexivity.
  - apply binary_normalize_not_nan.
Qed.

Lemma SFsub_fin_notnan (a b : spec_float) :
  SFfin a = true -> SFnan b = false -> SFnan (SF64sub a b) = false.
Proof.
  destruct a as [sa | sa | | sa ma ea]; try discriminate;
    destruct b as [sb | sb | | sb mb eb]; try discriminate; intros _ _;
    try reflexivity.
  - destruct sa, sb; reflexivity.
  - apply binary_normalize_not_nan.
Qed.

Lemma SFsub_notnan_fin (a b : spec_float) :
  SFnan a = false -> SFfin b = true -> SFnan (SF64sub a b) = false.
Proof.
  destruct a as [sa | sa | | sa ma ea]; try discriminate;
    destruct b as [sb | sb | | sb mb eb]; try discriminate; intros _ _;
    try reflexivity.
  - destruct sa, sb; reflexivity.
  - apply binary_normalize_not_nan.
Qed.

(** *** NaN in, NaN out *)

Lemma SFsub_nan_l (a b : spec_float) : SFnan a = true -> SFnan (SF64sub a b) = true.
Proof. destruct a; try discriminate. reflexivity. Qed.

Lemma SFsub_nan_r (a b : spec_float) : SFnan b = true -> SFnan (SF64sub a b) = true.
Proof. destruct b; try discriminate. destruct a; reflexivity. Qed.

Lemma SFmul_nan_l (a b : spec_float) : SFnan a = true -> SFnan (SF64mul a b) = true.
Proof. destruct a; try discriminate. reflexivity. Qed.

Lemma SFmul_nan_r (a b : spec_float) : SFnan b = true -> SFnan (SF64mul a b) = true.
Proof. destruct b; try discriminate. destruct a; reflexivity. Qed.

Lemma SFltb_nan_l (a b : spec_float) : SFnan a = true -> SFltb a b = false.
Proof. destruct a; try discriminate. reflexivity. Qed.

Lemma SFltb_nan_r (a b : spec_float) : SFnan b = true -> SFltb a b = false.
Proof. destruct b; try discriminate. destruct a; reflexivity. Qed.

(** *** An infinity or a NaN stays one *)

Lemma SFsub_nonfin_l (a b : spec_float) : SFfin a = false -> SFfin (SF64sub a b) = false.
Proof.
  destruct a as [sa | sa | | sa ma ea]; try discriminate; intros _;
    destruct b as [sb | sb | | sb mb eb]; try reflexivity.
  destruct sa, sb; reflexivity.
Qed.

Lemma SFmul_nonfin_l (a b : spec_float) : SFfin a = false -> SFfin (SF64mul a b) = false.
Proof.
  destruct a as [sa | sa | | sa ma ea]; try discriminate; intros _;
    destruct b as [sb | sb | | sb mb eb]; reflexivity.
Qed.

Lemma SFadd_nonfin_l (a b : spec_float) : SFfin a = false -> SFfin (SF64add a b) = false.
Proof.
  destruct a as [sa | sa | | sa ma ea]; try discriminate; intros _;
    destruct b as [sb | sb | | sb mb eb]; try reflexivity.
  destruct sa, sb; reflexivity.
Qed.

Lemma SFadd_nonfin_r (a b : spec_float) : SFfin b = false -> SFfin (SF64add a b) = false.
Proof.
  destruct b as [sb | sb | | sb mb eb]; try discriminate; intros _;
    destruct a as [sa | sa | | sa ma ea]; try reflexivity.
  destruct sa, sb; reflexivity.
Qed.

Lemma SFdiv_nonfin_l (a b : spec_float) : SFfin a = false -> SFfin (SF64div a b) = false.
Proof.
  destruct a as [sa | sa | | sa ma ea]; try discriminate; intros _;
    destruct b as [sb | sb | | sb mb eb]; reflexivity.
Qed.

(** *** A zero or a NaN *)

Lemma SFsub_self (a : spec_float) : SFzn (SF64sub a a) = true.
Proof.
  destruct a as [sa | sa | | sa ma ea].
  - destruct sa; reflexivity.
  - destruct sa; reflexivity.
  - reflexivity.
  - unfold SF64sub, SFsub. rewrite Z.sub_diag. reflexivity.
Qed.

Lemma SFmul_zn_l (a b : spec_float) : SFzn a = true -> SFzn (SF64mul a b) = true.
Proof.
  destruct a as [sa | sa | | sa ma ea]; try discriminate; intros _;
    destruct b as [sb | sb | | sb mb eb]; reflexivity.
Qed.

Lemma SFmul_zn_r (a b : spec_float) : SFzn b = true -> SFzn (SF64mul a b) = true.
Proof.
  destruct b as [sb | sb | | sb mb eb]; try discriminate; intros _;
    destruct a as [sa | sa | | sa ma ea]; reflexivity.
Qed.

Lemma SFsub_zn (a b : spec_float) :
  SFzn a = true -> SFzn b = true -> SFzn (SF64sub a b) = true.
Proof.
  destruct a as [sa | sa | | sa ma ea]; try discriminate; intros _;
    destruct b as [sb | sb | | sb mb eb]; try discriminate; intros _; try reflexivity.
  destruct sa, sb; reflexivity.
Qed.

Lemma SFltb_zn_zero (a : spec_float) (s : bool) :
  SFzn a = true -> SFltb a (S754_zero s) = false /\ SFltb (S754_zero s) a = false.
Proof. destruct a; try discriminate; intros _; split; reflexivity. Qed.

(** *** The order of the comparisons *)

Lemma SFleb_total (a b : spec_float) :
  SFnan a = false -> SFnan b = false -> SFleb a b = false -> SFltb b a = true.
Proof.
  unfold SFleb, SFltb.
  destruct a as [[ | ] | [ | ] | | [ | ] ma ea]; try discriminate;
    destruct b as [[ | ] | [ | ] | | [ | ] mb eb]; try discriminate;
    intros _ _; simpl; try discriminate; try reflexivity; intros Hab;
    SFcompare_cases.
Qed.

Lemma SFltb_asym (a b : spec_float) : SFltb a b = true -> SFltb b a = false.
Proof.
  unfold SFltb.
  destruct a as [[ | ] | [ | ] | | [ | ] ma ea];
    destruct b as [[ | ] | [ | ] | | [ | ] mb eb];
    simpl; try discriminate; try reflexivity; intros Hab;
    SFcompare_cases.
Qed.

Lemma SFleb_trans (a b c : spec_float) :
  SFleb a b = true -> SFleb b c = true -> SFleb a c = true.
Proof.
  unfold SFleb.
  destruct a as [[ | ] | [ | ] | | [ | ] ma ea];
    destruct b as [[ | ] | [ | ] | | [ | ] mb eb];
    simpl; try discriminate; intros Hab;
    destruct c as [[ | ] | [ | ] | | [ | ] mc ec];
    simpl; try discriminate; try reflexivity; intros Hbc;
    SFcompare_cases.
Qed.

Lemma SFltb_trans (a b c : spec_float) :
  SFltb a b = true -> SFltb b c = true -> SFltb a c = true.
Proof.
  unfold SFltb.
  destruct a as [[ | ] | [ | ] | | [ | ] ma ea];
    destruct b as [[ | ] | [ | ] | | [ | ] mb eb];
    simpl; try discriminate; intros Hab;
    destruct c as [[ | ] | [ | ] | | [ | ] mc ec];
    simpl; try discriminate; try reflexivity; intros Hbc;
    SFcompare_cases.
Qed.

(** *** Further cases: NaN operands, values that are not negative *)
Lemma SFadd_nan_l (a b : spec_float) : SFnan a = true -> SFnan (SF64add a b) = true.
Proof. destruct a; try discriminate. reflexivity. Qed.

Lemma SFadd_nan_r (a b : spec_float) : SFnan b = true -> SFnan (SF64add a b) = true.
Proof. destruct b; try discriminate. destruct a; reflexivity. Qed.

Lemma SFdiv_nan_l (a b : spec_float) : SFnan a = true -> SFnan (SF64div a b) = true.
Proof. destruct a; try discriminate. reflexivity. Qed.

Lemma SFsqrt_nan (a : spec_float) : SFnan a = true -> SFnan (SF64sqrt a) = true.
Proof. destruct a; try discriminate. reflexivity. Qed.

Lemma SFmul_fin_nonneg (a b : spec_float) :
  SFfin a && SFnonneg a = true -> SFfin b && SFnonneg b = true ->
  SFnonneg (SF64mul a b) = true.
Proof.
  destruct a as [sa | sa | | [ | ] ma ea]; try discriminate;
    destruct b as [sb | sb | | [ | ] mb eb]; try discriminate; intros _ _;
    try reflexivity.
  unfold SF64mul, SFmul. cbn [xorb].
  assert (Hs : SFsigned false
                 (binary_round_aux prec emax false (Zpos (ma * mb)) (ea + eb) loc_Exact) = true)
    by (apply binary_round_aux_signed; lia).
  destruct (binary_round_aux prec emax false _ _ _) as [s | s | | s m e];
    simpl in *; try reflexivity; try discriminate; destruct s; simpl in *; congruence.
Qed.

Lemma SFadd_nonneg_nonneg (a b : spec_float) :
  SFnonneg a = true -> SFnonneg b = true -> SFnonneg (SF64add a b) = true.
Proof.
  destruct a as [sa | [ | ] | | [ | ] ma ea]; try discriminate;
    destruct b as [sb | [ | ] | | [ | ] mb eb]; try discriminate; intros _ _;
    try reflexivity.
  - destruct sa, sb; reflexivity.
  - unfold SF64add, SFadd. cbn [cond_Zopp Z.add binary_normalize].
    pose proof (binary_round_signed false
                  (fst (shl_align ma ea (Z.min ea eb)) + fst (shl_align mb eb (Z.min ea eb)))
                  (Z.min ea eb)) as Hs.
    destruct (binary_round prec emax false _ _) as [s | s | | s m e];
      simpl in *; try reflexivity; try discriminate; destruct s; simpl in *; congruence.
Qed.

Lemma SFleb_zero_nonneg (a : spec_float) :
  SFnonneg a = true -> SFleb (S754_zero false) a = true.
Proof. destruct a as [s | [ | ] | | [ | ] m e]; try discriminate; reflexivity. Qed.

(** ** binary64: the classes, on primitive floats *)

Lemma fsub_fin_notnan (a b : float) :
  ffin a = true -> fnan b = false -> fnan (a - b) = false.
Proof. unfold fnan, ffin. rewrite sub_spec. apply SFsub_fin_notnan. Qed.

Lemma fsub_notnan_fin (a b : float) :
  fnan a = false -> ffin b = true -> fnan (a - b) = false.
Proof. unfold fnan, ffin. rewrite sub_spec. apply SFsub_notnan_fin. Qed.

Lemma fadd_fin_notnan (a b : float) :
  ffin a = true -> fnan b = false -> fnan (a + b) = false.
Proof. unfold fnan, ffin. rewrite add_spec. apply SFadd_fin_notnan. Qed.

Lemma fmul_fin_fin (a b : float) :
  ffin a = true -> ffin b = true -> fnan (a * b) = false.
Proof. unfold fnan, ffin. rewrite mul_spec. apply SFmul_fin_fin. Qed.

Lemma fsquares_notnan (a b : float) :
  fnan a = false -> fnan b = false -> fnan (a * a + b * b) = false.
Proof.
  unfold fnan. intros Ha Hb. rewrite add_spec, !mul_spec.
  apply SFadd_nonneg; apply SFmul_square; assumption.
Qed.

Lemma fleb_refl (a : float) : (a <=? a)%float = negb (fnan a).
Proof.
  unfold fnan. rewrite leb_spec. unfold SFleb.
  destruct (Prim2SF a) as [[ | ] | [ | ] | | [ | ] m e]; simpl; try reflexivity.
  - rewrite Z.compare_refl.
    change (Pos.compare_cont Eq m m) with (Pos.compare m m).
    now rewrite Pos.compare_refl.
  - rewrite Z.compare_refl.
    change (Pos.compare_cont Eq m m) with (Pos.compare m m).
    now rewrite Pos.compare_refl.
Qed.

(** A value in [0,1] is finite. *)
Lemma in_unit_fin (a : float) : in_unit a = true -> ffin a = true.
Proof.
  unfold in_unit, ffin. cbn [dle Double_float]. rewrite !leb_spec.
  change (Prim2SF lit_0) with (S754_zero false).
  intros [H0 H1]%andb_prop. revert H0 H1.
  destruct (Prim2SF a) as [s | [ | ] | | s m e]; try reflexivity; discriminate.
Qed.

(** An infinity or a NaN is clamped to exactly 0 or exactly 1. *)
Lemma clamp_nonfin (a : float) :
  ffin a = false ->
  std_max lit_0 (std_min lit_1 a) = lit_0 \/ std_max lit_0 (std_min lit_1 a) = lit_1.
Proof.
  unfold ffin, std_max, std_min. cbn [dlt Double_float]. intros Ha.
  destruct (a <? lit_1)%float eqn:H1.
  - destruct (lit_0 <? a)%float eqn:H0; [ | now left].
    exfalso. rewrite ltb_spec in H0, H1. revert Ha H0 H1.
    destruct (Prim2SF a) as [s | [ | ] | | s m e]; discriminate.
  - destruct (lit_0 <? lit_1)%float; [now right | now left].
Qed.

(** ** binary64: comparisons *)

Lemma SFltb_SFleb (a b : spec_float) : SFltb a b = true -> SFleb a b = true.
Proof.
  unfold SFltb, SFleb. destruct (SFcompare a b) as [[ | | ] | ]; congruence.
Qed.

Lemma SFeqb_zero (a : spec_float) :
  SFeqb a (S754_zero false) = true -> exists s, a = S754_zero s.
Proof.
  destruct a as [s | s | | s m e]; simpl.
  - intros _. now exists s.
  - destruct s; discriminate.
  - discriminate.
  - destruct s; discriminate.
Qed.

Lemma float_laws : DoubleLaws float.
Proof.
  split.
  - intros a b. simpl. rewrite ltb_spec, leb_spec. apply SFltb_SFleb.
  - reflexivity.
  - reflexivity.
  - reflexivity.
  - reflexivity.
  - reflexivity.
  - intros a. simpl. rewrite eqb_spec, ltb_spec.
    change (Prim2SF lit_0) with (S754_zero false).
    intros [s ->]%SFeqb_zero. reflexivity.
  - intros a. simpl. rewrite eqb_spec, ltb_spec, abs_spec.
    change (Prim2SF lit_0) with (S754_zero false).
    intros [s ->]%SFeqb_zero. reflexivity.
  - reflexivity.
  - intros a b. simpl. rewrite !fleb_refl, leb_spec, ltb_spec.
    intros Ha%negb_true_iff Hb%negb_true_iff. now apply SFleb_total.
  - intros a b c. simpl. rewrite !leb_spec. apply SFleb_trans.
  - intros a b c. simpl. rewrite !ltb_spec. apply SFltb_trans.
  - intros a b. simpl. rewrite !ltb_spec. apply SFltb_asym.
Qed.

(** ** Reals: comparisons *)

Lemma Rltb_true (a b : R) : Rltb a b = true <-> (a < b)%R.
Proof. unfold Rltb. destruct (Rlt_dec a b); split; intros; try easy. Qed.

Lemma Rltb_false (a b : R) : Rltb a b = false <-> (b <= a)%R.
Proof.
  unfold Rltb. destruct (Rlt_dec a b); split; intros; try easy; lra.
Qed.

Lemma Rleb_true (a b : R) : Rleb a b = true <-> (a <= b)%R.
Proof. unfold Rleb. destruct (Rle_dec a b); split; intros; try easy. Qed.

Lemma Rleb_false (a b : R) : Rleb a b = false <-> (b < a)%R.
Proof.
  unfold Rleb. destruct (Rle_dec a b); split; intros; try easy; lra.
Qed.

Lemma Reqb_true (a b : R) : Reqb a b = true <-> a = b.
Proof. unfold Reqb. destruct (Req_dec_T a b); split; intros; try easy. Qed.

Lemma real_laws : DoubleLaws R.
Proof.
  split; unfold in_unit, lit_0, lit_1; simpl.
  - intros a b. rewrite Rltb_true, Rleb_true. lra.
  - apply Rleb_true. lra.
  - apply Rleb_true. lra.
  - apply Rleb_true. lra.
  - apply andb_true_intro; split; apply Rleb_true; lra.
  - apply andb_true_intro; split; apply Rleb_true; lra.
  - intros a. rewrite Reqb_true, Rltb_true. lra.
  - intros a. rewrite Reqb_true, Rltb_true. intros ->. rewrite Rabs_R0. lra.
  - unfold Reqb. destruct (Req_dec_T 1 0) as [E | E]; [lra | reflexivity].
  - intros a b _ _. rewrite Rleb_false, Rltb_true. lra.
  - intros a b c. rewrite !Rleb_true. lra.
  - intros a b c. rewrite !Rltb_true. lra.
  - intros a b. rewrite Rltb_true, Rltb_false. lra.
Qed.

(** ** Consequences of the laws, for either interpretation *)

Section Laws.

Context {F : Type} `{Double F}.
Hypothesis laws : DoubleLaws F.

(** [std::max(0.0, std::min(1.0, v))] lies in [0,1] whatever [v] is. *)
Lemma clamp_in_unit (v : F) : in_unit (std_max lit_0 (std_min lit_1 v)) = true.
Proof.
  unfold in_unit, std_max, std_min.
  destruct (dlt v lit_1) eqn:Hv.
  - destruct (dlt lit_0 v) eqn:H0.
    + now rewrite (dlt_dle _ laws _ _ H0), (dlt_dle _ laws _ _ Hv).
    + now rewrite (dle_0_0 _ laws), (dle_0_1 _ laws).
  - destruct (dlt lit_0 lit_1) eqn:H0.
    + now rewrite (dle_0_1 _ laws), (dle_1_1 _ laws).
    + now rewrite (dle_0_0 _ laws), (dle_0_1 _ laws).
Qed.

Lemma cartesianToBary_in_unit (t : Triangle F) (p : Point2D F) :
  bary_in_unit (cartesianToBary t p) = true.
Proof.
  unfold bary_in_unit, cartesianToBary. cbn [performance velocity adaptability].
  now rewrite !clamp_in_unit.
Qed.

Lemma initial_in_unit : bary_in_unit (dotPosition (initial (F := F))) = true.
Proof.
  unfold bary_in_unit, initial. cbn [dotPosition performance velocity adaptability].
  now rewrite (lit_0_33_in_unit _ laws), (lit_0_34_in_unit _ laws).
Qed.

Lemma step_in_unit (s : State F) (c : Call F) :
  bary_in_unit (dotPosition s) = true ->
  bary_in_unit (dotPosition (step s c)) = true.
Proof.
  intros Hs. destruct c as [ | | mx my | mx my | ]; cbn [step]; try exact Hs.
  - unfold handleMouseDown. destruct (triangle s) as [t | ]; [ | exact Hs].
    cbv zeta. destruct (dlt _ (of_int 15)); [exact Hs | ].
    destruct (isInside t _); [ | exact Hs].
    apply cartesianToBary_in_unit.
  - unfold handleMouseMove. destruct (triangle s) as [t | ]; [ | exact Hs].
    destruct (negb (isDragging s)); [exact Hs | ].
    apply cartesianToBary_in_unit.
Qed.

Lemma run_in_unit (calls : list (Call F)) (s : State F) :
  bary_in_unit (dotPosition s) = true ->
  bary_in_unit (dotPosition (run calls s)) = true.
Proof.
  revert s. induction calls as [ | c calls IH]; intros s Hs.
  - exact Hs.
  - cbn [run fold_left]. apply IH, step_in_unit, Hs.
Qed.

(** No divisor is zero: the watched methods never give up, and agree with the
    methods of the source. *)
Lemma checked_div_nonzero (a b : F) :
  deq b lit_0 = false -> checked_div a b = Some (ddiv a b).
Proof. intros Hb. unfold checked_div. now rewrite Hb. Qed.

Lemma lengthSq_nonzero (v : F) : dlt v lit_0_001 = false -> deq v lit_0 = false.
Proof.
  intros Hv. destruct (deq v lit_0) eqn:E; [ | reflexivity].
  apply (zero_lt_eps _ laws) in E. congruence.
Qed.

Lemma totalArea_nonzero (v : F) :
  deq (if dlt (dabs v) lit_0_001 then lit_1 else v) lit_0 = false.
Proof.
  destruct (dlt (dabs v) lit_0_001) eqn:Hv.
  - apply (one_not_zero _ laws).
  - destruct (deq v lit_0) eqn:E; [ | reflexivity].
    apply (zero_abs_lt_eps _ laws) in E. congruence.
Qed.

Lemma projectPointOntoSegment_checked_ok (p a b : Point2D F) :
  projectPointOntoSegment_checked p a b = Some (projectPointOntoSegment p a b).
Proof.
  unfold projectPointOntoSegment_checked, projectPointOntoSegment. cbv zeta.
  destruct (dlt _ lit_0_001) eqn:Hl; [reflexivity | ].
  rewrite (checked_div_nonzero _ _ (lengthSq_nonzero _ Hl)). reflexivity.
Qed.

Lemma clampToTriangle_checked_ok (t : Triangle F) (p : Point2D F) :
  clampToTriangle_checked t p = Some (clampToTriangle t p).
Proof.
  unfold clampToTriangle_checked, clampToTriangle.
  destruct (isInside t p); [reflexivity | ].
  rewrite !projectPointOntoSegment_checked_ok. cbn [bind]. cbv zeta.
  destruct (_ && _); [reflexivity | ].
  destruct (dle _ _); reflexivity.
Qed.

Lemma cartesianToBary_checked_ok (t : Triangle F) (p : Point2D F) :
  cartesianToBary_checked t p = Some (cartesianToBary t p).
Proof.
  unfold cartesianToBary_checked, cartesianToBary.
  rewrite clampToTriangle_checked_ok. cbn [bind]. cbv zeta.
  rewrite !(checked_div_nonzero _ _ (totalArea_nonzero _)). reflexivity.
Qed.

End Laws.

(** ** [isInside] and [clampToTriangle], for either interpretation *)

Section Clamp.

Context {F : Type} `{Double F}.
Hypothesis laws : DoubleLaws F.

(** A point is classified outside exactly when one of the three signed areas
    is strictly negative and one is strictly positive. *)
Lemma isInside_false_iff (t : Triangle F) (p : Point2D F) :
  let d1 := signedArea p (top t) (left t) in
  let d2 := signedArea p (left t) (right t) in
  let d3 := signedArea p (right t) (top t) in
  isInside t p = false <->
  dlt d1 lit_0 || dlt d2 lit_0 || dlt d3 lit_0 = true /\
  dlt lit_0 d1 || dlt lit_0 d2 || dlt lit_0 d3 = true.
Proof.
  cbv zeta. unfold isInside. cbv zeta.
  rewrite negb_false_iff, andb_true_iff. reflexivity.
Qed.

(** The three candidates being comparable (no NaN among the squared
    distances), the result is the nearest, the earlier edge winning a tie. *)
Lemma clampToTriangle_nearest (t : Triangle F) (p : Point2D F) :
  let proj1 := projectPointOntoSegment p (top t) (left t) in
  let proj2 := projectPointOntoSegment p (left t) (right t) in
  let proj3 := projectPointOntoSegment p (right t) (top t) in
  dle (distSq p proj1) (distSq p proj1) = true ->
  dle (distSq p proj2) (distSq p proj2) = true ->
  dle (distSq p proj3) (distSq p proj3) = true ->
  clamp_spec t p.
Proof.
  intros proj1 proj2 proj3 H1 H2 H3.
  unfold clamp_spec, clampToTriangle.
  destruct (isInside t p); [reflexivity | ].
  cbv zeta. fold proj1 proj2 proj3. unfold nearest_first. cbv zeta.
  destruct (dle (distSq p proj1) (distSq p proj2)) eqn:E12;
    destruct (dle (distSq p proj1) (distSq p proj3)) eqn:E13; cbn [andb].
  - left. repeat split.
  - pose proof (dle_total _ laws _ _ H1 H3 E13) as L31.
    destruct (dle (distSq p proj2) (distSq p proj3)) eqn:E23.
    + pose proof (dle_trans _ laws _ _ _ E12 E23). congruence.
    + pose proof (dle_total _ laws _ _ H2 H3 E23) as L32.
      right; right. repeat split; assumption.
  - pose proof (dle_total _ laws _ _ H1 H2 E12) as L21.
    destruct (dle (distSq p proj2) (distSq p proj3)) eqn:E23.
    + right; left. repeat split; assumption.
    + pose proof (dle_total _ laws _ _ H2 H3 E23) as L32.
      right; right. repeat split; [ | assumption].
      exact (dlt_trans _ laws _ _ _ L32 L21).
  - pose proof (dle_total _ laws _ _ H1 H2 E12) as L21.
    pose proof (dle_total _ laws _ _ H1 H3 E13) as L31.
    destruct (dle (distSq p proj2) (distSq p proj3)) eqn:E23.
    + right; left. repeat split; assumption.
    + pose proof (dle_total _ laws _ _ H2 H3 E23) as L32.
      right; right. repeat split; assumption.
Qed.

(** A projection is the start of the segment, or the point at a parameter
    in [0,1] on the line through its ends. *)
Lemma projectPointOntoSegment_along (p a b : Point2D F) :
  projectPointOntoSegment p a b = a \/
  exists u : F, in_unit u = true /\ projectPointOntoSegment p a b = along a b u.
Proof.
  unfold projectPointOntoSegment. cbv zeta.
  destruct (dlt _ lit_0_001); [now left | right].
  eexists. split; [apply (clamp_in_unit laws) | reflexivity].
Qed.

(** Outside, the result is one of the three projections. *)
Lemma clampToTriangle_outside (t : Triangle F) (p : Point2D F) :
  isInside t p = false ->
  clampToTriangle t p = projectPointOntoSegment p (top t) (left t) \/
  clampToTriangle t p = projectPointOntoSegment p (left t) (right t) \/
  clampToTriangle t p = projectPointOntoSegment p (right t) (top t).
Proof.
  intros Hout. unfold clampToTriangle. rewrite Hout. cbv zeta.
  destruct (_ && _); [now left | ].
  destruct (dle _ _); [right; now left | right; now right].
Qed.

Lemma clampToTriangle_edge_point (t : Triangle F) (p : Point2D F) :
  isInside t p = false -> edge_point t (clampToTriangle t p).
Proof.
  intros Hout. unfold edge_point, segment_point.
  destruct (clampToTriangle_outside t p Hout) as [-> | [-> | ->]];
    [left | right; left | right; right]; apply projectPointOntoSegment_along.
Qed.

End Clamp.
(** ** Sequences of calls, for either interpretation *)

Section Seq.
Context {F : Type} `{Double F}.

Lemma step_triangle (s : State F) (c : Call F) :
  triangle (step s c) = match c with
                        | CallInit => Some program_triangle
                        | CallCleanup => None
                        | _ => triangle s
                        end.
Proof.
  destruct c as [ | | mx my | mx my | ]; cbn [step]; try reflexivity.
  - unfold handleMouseDown. destruct (triangle s) as [t | ] eqn:Ht; [ | exact Ht].
    cbv zeta. destruct (dlt _ _); [reflexivity | ].
    destruct (isInside _ _); [reflexivity | exact Ht].
  - unfold handleMouseMove. destruct (triangle s) as [t | ] eqn:Ht; [ | exact Ht].
    destruct (negb _); [exact Ht | reflexivity].
Qed.

Lemma run_triangle_known (calls : list (Call F)) (s : State F) :
  triangle_known s -> triangle_known (run calls s).
Proof.
  revert s. induction calls as [ | c calls IH]; intros s Hs; [exact Hs | ].
  cbn [run fold_left]. apply IH. unfold triangle_known. rewrite step_triangle.
  destruct c; try exact Hs; [now right | now left].
Qed.

Lemma step_without_triangle (s : State F) (c : Call F) :
  triangle s = None -> is_init c = false ->
  triangle (step s c) = None /\ dotPosition (step s c) = dotPosition s.
Proof.
  intros Hnull Hc. destruct c as [ | | mx my | mx my | ]; try discriminate;
    cbn [step]; unfold cleanup, handleMouseDown, handleMouseMove, handleMouseUp;
    rewrite ?Hnull; cbn [triangle dotPosition]; auto.
Qed.

Lemma run_moves_idle (ms : list (F * F)) (s : State F) :
  isDragging s = false -> run (moves ms) s = s.
Proof.
  intros Hidle. induction ms as [ | m ms IH]; [reflexivity | ].
  cbn [moves map run fold_left step].
  replace (handleMouseMove (fst m) (snd m) s) with s; [exact IH | ].
  unfold handleMouseMove. rewrite Hidle. now destruct (triangle s).
Qed.

Lemma run_moves_dragging (ms : list (F * F)) (s : State F) (t : Triangle F) :
  triangle s = Some t -> isDragging s = true ->
  let s' := run (moves ms) s in
  triangle s' = Some t /\ isDragging s' = true /\
  dotPosition s' = match rev ms with
                   | [] => dotPosition s
                   | m :: _ => cartesianToBary t (mkPoint2D (fst m) (snd m))
                   end.
Proof.
  cbv zeta. revert s. induction ms as [ | m ms IH] using rev_ind; intros s Ht Hd.
  - now repeat split.
  - unfold moves, run in *. rewrite map_app, fold_left_app. cbn [map fold_left step].
    destruct (IH s Ht Hd) as (Ht' & Hd' & _).
    rewrite rev_app_distr. cbn [rev app].
    unfold handleMouseMove. rewrite Ht', Hd'. cbn [negb triangle isDragging dotPosition].
    now repeat split.
Qed.

Lemma handleMouseDown_taken (s : State F) (t : Triangle F) (mouseX mouseY : F) :
  triangle s = Some t -> press_taken t s mouseX mouseY = true ->
  let s' := handleMouseDown mouseX mouseY s in
  triangle s' = Some t /\ isDragging s' = true.
Proof.
  intros Ht Hp. cbv zeta. unfold press_taken, distance in Hp. cbn [x y] in Hp.
  unfold handleMouseDown. rewrite Ht. cbv zeta. cbn [x y].
  destruct (dlt _ (of_int 15)); cbn [orb] in Hp.
  - now split.
  - rewrite Hp. now split.
Qed.

Lemma handleMouseDown_not_taken (s : State F) (t : Triangle F) (mouseX mouseY : F) :
  triangle s = Some t -> press_taken t s mouseX mouseY = false ->
  handleMouseDown mouseX mouseY s = s.
Proof.
  intros Ht Hp. unfold press_taken, distance in Hp. cbn [x y] in Hp.
  apply orb_false_elim in Hp as [Hg Hi].
  unfold handleMouseDown. rewrite Ht. cbv zeta. cbn [x y]. now rewrite Hg, Hi.
Qed.

Lemma marker_position (s : State F) (t : Triangle F) :
  triangle s = Some t ->
  mkPoint2D (getDotX s) (getDotY s) = baryToCartesian t (dotPosition s).
Proof.
  intros Ht. unfold getDotX, getDotY. rewrite Ht.
  now destruct (baryToCartesian t (dotPosition s)).
Qed.

End Seq.

(** ** binary64: the projections of [clampToTriangle] *)

Lemma fnonfin_raw_t (px py ax ay dx dy l : float) :
  ffin px && ffin py = false ->
  ffin (((px - ax) * dx + (py - ay) * dy) / l) = false.
Proof.
  unfold ffin. intros Hp.
  rewrite div_spec, add_spec, !mul_spec, !sub_spec.
  apply SFdiv_nonfin_l.
  apply andb_false_iff in Hp as [Hp | Hp].
  - apply SFadd_nonfin_l, SFmul_nonfin_l, SFsub_nonfin_l, Hp.
  - apply SFadd_nonfin_r, SFmul_nonfin_l, SFsub_nonfin_l, Hp.
Qed.

Lemma projection_offsets_notnan (p a b : Point2D float) :
  edge_ok a b = true -> fnan (x p) = false -> fnan (y p) = false ->
  fnan (x (projectPointOntoSegment p a b) - x p) = false /\
  fnan (y (projectPointOntoSegment p a b) - y p) = false.
Proof.
  unfold edge_ok. cbv zeta.
  intros Hok Hpx Hpy.
  repeat (apply andb_prop in Hok as [Hok ?]).
  unfold projectPointOntoSegment. cbv zeta.
  cbn [dsub dadd dmul ddiv dlt Double_float].
  destruct (_ <? lit_0_001)%float.
  - split; apply fsub_fin_notnan; assumption.
  - set (traw := (_ / _)%float).
    destruct (ffin (x p) && ffin (y p)) eqn:Hfin.
    + apply andb_prop in Hfin as [Hfx Hfy].
      pose proof (in_unit_fin _ (clamp_in_unit float_laws traw)) as Ht.
      split; apply fsub_notnan_fin; try assumption;
        apply fadd_fin_notnan; try assumption; apply fmul_fin_fin; assumption.
    + pose proof (fnonfin_raw_t _ _ (x a) (y a) (x b - x a) (y b - y a)
                    ((x b - x a) * (x b - x a) + (y b - y a) * (y b - y a)) Hfin) as Hraw.
      fold traw in Hraw.
      destruct (clamp_nonfin traw Hraw) as [-> | ->];
        cbn [x y]; split; apply fsub_fin_notnan; assumption.
Qed.

Lemma distSq_notnan (p q : Point2D float) :
  fnan (x q - x p) = false -> fnan (y q - y p) = false ->
  (distSq p q <=? distSq p q)%float = true.
Proof.
  intros Hx Hy. rewrite fleb_refl. unfold distSq. cbv zeta.
  cbn [dsub dadd dmul Double_float].
  now rewrite fsquares_notnan.
Qed.

Lemma fnan_signedArea (p a b : Point2D float) :
  fnan (x p) || fnan (y p) = true -> fnan (signedArea p a b) = true.
Proof.
  unfold signedArea, fnan. cbn [dsub dmul Double_float].
  rewrite !sub_spec, !mul_spec, !sub_spec. intros [Hx | Hy]%orb_prop.
  - apply SFsub_nan_l, SFmul_nan_l, SFsub_nan_l, Hx.
  - apply SFsub_nan_r, SFmul_nan_r, SFsub_nan_l, Hy.
Qed.

Lemma fnan_ltb (a b : float) : fnan a = true -> (a <? b)%float = false /\ (b <? a)%float = false.
Proof.
  unfold fnan. intros Ha. rewrite !ltb_spec. split.
  - now apply SFltb_nan_l.
  - now apply SFltb_nan_r.
Qed.

(** A point with a NaN coordinate counts as inside, for every triangle. *)
Lemma isInside_nan (t : Triangle float) (p : Point2D float) :
  fnan (x p) || fnan (y p) = true -> isInside t p = true.
Proof.
  intros Hp. unfold isInside. cbv zeta. cbn [dlt Double_float].
  destruct (fnan_ltb _ lit_0 (fnan_signedArea p (top t) (left t) Hp)) as [-> ->].
  destruct (fnan_ltb _ lit_0 (fnan_signedArea p (left t) (right t) Hp)) as [-> ->].
  destruct (fnan_ltb _ lit_0 (fnan_signedArea p (right t) (top t) Hp)) as [-> ->].
  reflexivity.
Qed.

Lemma program_triangle_ok : triangle_ok (newTriangle CANVAS_WIDTH CANVAS_HEIGHT) = true.
Proof. vm_compute. reflexivity. Qed.

(** On binary64, for a triangle whose edges are finite, [clampToTriangle]
    meets its specification at every point, NaN and infinite coordinates
    included. *)
Lemma clamp_spec_float (t : Triangle float) (p : Point2D float) :
  triangle_ok t = true -> clamp_spec t p.
Proof.
  intros [[Htl Hlr]%andb_prop Hrt]%andb_prop.
  destruct (fnan (x p) || fnan (y p)) eqn:Hnan.
  - pose proof (isInside_nan t p Hnan) as Hin.
    unfold clamp_spec, clampToTriangle. now rewrite Hin.
  - apply orb_false_elim in Hnan as [Hx Hy].
    apply (clampToTriangle_nearest float_laws); cbn [dle Double_float];
      apply distSq_notnan; now apply projection_offsets_notnan.
Qed.

(** ** binary64: the vertices are inside *)

(** The signed area of a triangle with a repeated first point is a zero or a
    NaN, whatever the coordinates. *)
Lemma signedArea_repeat_12 (p q : Point2D float) : fzn (signedArea p p q) = true.
Proof.
  unfold fzn, signedArea. cbn [dsub dmul Double_float].
  rewrite sub_spec. apply SFsub_self.
Qed.

Lemma signedArea_repeat_13 (p q : Point2D float) : fzn (signedArea p q p) = true.
Proof.
  unfold fzn, signedArea. cbn [dsub dmul Double_float].
  rewrite sub_spec, !mul_spec, !sub_spec.
  apply SFsub_zn; [apply SFmul_zn_l | apply SFmul_zn_r]; apply SFsub_self.
Qed.

Lemma fzn_not_signed (a : float) :
  fzn a = true -> (a <? lit_0)%float = false /\ (lit_0 <? a)%float = false.
Proof.
  unfold fzn. rewrite !ltb_spec. change (Prim2SF lit_0) with (S754_zero false).
  apply SFltb_zn_zero.
Qed.

Lemma not_both_signs (a : float) : (a <? lit_0)%float && (lit_0 <? a)%float = false.
Proof.
  destruct (a <? lit_0)%float eqn:Ha; [ | reflexivity].
  cbn [andb]. exact (dlt_asym _ float_laws _ _ Ha).
Qed.

Lemma vertices_inside_float (t : Triangle float) :
  isInside t (top t) = true /\ isInside t (left t) = true /\ isInside t (right t) = true.
Proof.
  unfold isInside. cbv zeta. cbn [dlt Double_float].
  repeat split.
  - destruct (fzn_not_signed _ (signedArea_repeat_12 (top t) (left t))) as [-> ->].
    destruct (fzn_not_signed _ (signedArea_repeat_13 (top t) (right t))) as [-> ->].
    rewrite !orb_false_r. cbn [orb]. now rewrite not_both_signs.
  - destruct (fzn_not_signed _ (signedArea_repeat_13 (left t) (top t))) as [-> ->].
    destruct (fzn_not_signed _ (signedArea_repeat_12 (left t) (right t))) as [-> ->].
    rewrite !orb_false_r. cbn [orb]. now rewrite not_both_signs.
  - destruct (fzn_not_signed _ (signedArea_repeat_13 (right t) (left t))) as [-> ->].
    destruct (fzn_not_signed _ (signedArea_repeat_12 (right t) (top t))) as [-> ->].
    rewrite !orb_false_r. cbn [orb]. now rewrite not_both_signs.
Qed.
(** ** binary64: NaN pointers and positions that are not negative *)
Lemma in_unit_fpos (a : float) : in_unit a = true -> fpos a = true.
Proof.
  unfold in_unit, fpos. cbn [dle Double_float]. rewrite !leb_spec.
  change (Prim2SF lit_0) with (S754_zero false).
  intros [H0 H1]%andb_prop. revert H0 H1.
  destruct (Prim2SF a) as [s | [ | ] | | [ | ] m e]; try reflexivity; discriminate.
Qed.

Lemma weighted_sum_nonneg (w1 w2 w3 c1 c2 c3 : float) :
  in_unit w1 = true -> in_unit w2 = true -> in_unit w3 = true ->
  fpos c1 = true -> fpos c2 = true -> fpos c3 = true ->
  (0 <=? w1 * c1 + w2 * c2 + w3 * c3)%float = true.
Proof.
  intros H1%in_unit_fpos H2%in_unit_fpos H3%in_unit_fpos C1 C2 C3.
  unfold fpos in *. rewrite leb_spec, !add_spec, !mul_spec.
  change (Prim2SF 0) with (S754_zero false).
  apply SFleb_zero_nonneg.
  repeat apply SFadd_nonneg_nonneg; now apply SFmul_fin_nonneg.
Qed.

Lemma clamp_nan (v : float) :
  fnan v = true -> std_max lit_0 (std_min lit_1 v) = lit_1.
Proof.
  intros Hv. unfold std_max, std_min. cbn [dlt Double_float].
  destruct (fnan_ltb v lit_1 Hv) as [-> _]. reflexivity.
Qed.

Lemma fnan_div (a b : float) : fnan a = true -> fnan (a / b) = true.
Proof. unfold fnan. rewrite div_spec. apply SFdiv_nan_l. Qed.

Lemma cartesianToBary_nan (t : Triangle float) (p : Point2D float) :
  fnan (x p) || fnan (y p) = true ->
  cartesianToBary t p = mkBarycentricCoord lit_1 lit_1 lit_1.
Proof.
  intros Hp. unfold cartesianToBary, clampToTriangle.
  rewrite (isInside_nan t p Hp). cbv zeta. cbn [ddiv Double_float].
  now rewrite !clamp_nan by (apply fnan_div, fnan_signedArea, Hp).
Qed.

Lemma distance_nan (a b : Point2D float) (c : float) :
  fnan (x a) || fnan (y a) = true -> (distance a b <? c)%float = false.
Proof.
  intros Ha. apply (fun H => proj1 (fnan_ltb (distance a b) c H)).
  unfold distance, fnan. cbv zeta.
  cbn [dsqrt dadd dmul dsub Double_float].
  rewrite sqrt_spec, add_spec, !mul_spec, !sub_spec. apply SFsqrt_nan.
  apply orb_prop in Ha as [Hx | Hy].
  - apply SFadd_nan_l, SFmul_nan_l, SFsub_nan_l, Hx.
  - apply SFadd_nan_r, SFmul_nan_l, SFsub_nan_l, Hy.
Qed.

(** ** Reals: the geometry *)

Lemma clamp_spec_real (t : Triangle R) (p : Point2D R) : clamp_spec t p.
Proof.
  apply (clampToTriangle_nearest real_laws); real_ops; apply Rleb_true; lra.
Qed.

Lemma in_unit_real (u : R) : in_unit u = true <-> (0 <= u <= 1)%R.
Proof.
  unfold in_unit, lit_0, lit_1. real_ops.
  rewrite andb_true_iff, !Rleb_true. reflexivity.
Qed.

(** All three signed areas of one sign: inside. *)
Lemma isInside_real_same_sign (t : Triangle R) (p : Point2D R) :
  let d1 := signedArea p (top t) (left t) in
  let d2 := signedArea p (left t) (right t) in
  let d3 := signedArea p (right t) (top t) in
  (d1 <= 0 /\ d2 <= 0 /\ d3 <= 0)%R \/ (0 <= d1 /\ 0 <= d2 /\ 0 <= d3)%R ->
  isInside t p = true.
Proof.
  cbv zeta. intros Hs. unfold isInside. cbv zeta. unfold lit_0. real_ops.
  apply negb_true_iff, andb_false_iff.
  destruct Hs as [(H1 & H2 & H3) | (H1 & H2 & H3)]; [right | left].
  - apply orb_false_intro; [apply orb_false_intro | ]; apply Rltb_false; assumption.
  - apply orb_false_intro; [apply orb_false_intro | ]; apply Rltb_false; assumption.
Qed.

(** A point of an edge has one signed area zero and the other two of the
    sign of the triangle's area: the boundary is inside, whichever way the
    vertices wind. *)
Lemma on_boundary_inside (t : Triangle R) (p : Point2D R) :
  on_boundary t p -> isInside t p = true.
Proof.
  destruct t as [[tx ty] [lx ly] [rx ry]].
  intros [(u & Hu & ->) | [(u & Hu & ->) | (u & Hu & ->)]];
    apply in_unit_real in Hu; apply isInside_real_same_sign;
    unfold signedArea, along; cbn [top left right x y]; real_ops;
    set (S := ((tx - rx) * (ly - ry) - (lx - rx) * (ty - ry))%R);
    destruct (Rle_dec 0 S) as [HS | HS].
  - right. repeat split; [ | replace (_ - _)%R with ((1 - u) * S)%R by (unfold S; ring)
                           | replace (_ - _)%R with (u * S)%R by (unfold S; ring)]; nra.
  - left. repeat split; [ | replace (_ - _)%R with ((1 - u) * S)%R by (unfold S; ring)
                          | replace (_ - _)%R with (u * S)%R by (unfold S; ring)]; nra.
  - right. repeat split; [replace (_ - _)%R with (u * S)%R by (unfold S; ring) |
                          | replace (_ - _)%R with ((1 - u) * S)%R by (unfold S; ring)]; nra.
  - left. repeat split; [replace (_ - _)%R with (u * S)%R by (unfold S; ring) |
                         | replace (_ - _)%R with ((1 - u) * S)%R by (unfold S; ring)]; nra.
  - right. repeat split; [replace (_ - _)%R with ((1 - u) * S)%R by (unfold S; ring)
                         | replace (_ - _)%R with (u * S)%R by (unfold S; ring) | ]; nra.
  - left. repeat split; [replace (_ - _)%R with ((1 - u) * S)%R by (unfold S; ring)
                        | replace (_ - _)%R with (u * S)%R by (unfold S; ring) | ]; nra.
Qed.

Lemma along_real_start (a b : Point2D R) : along a b 0%R = a.
Proof.
  destruct a as [ax ay]. unfold along. cbn [x y]. real_ops. f_equal; ring.
Qed.

Lemma projectPointOntoSegment_on_segment (p a b : Point2D R) :
  on_segment a b (projectPointOntoSegment p a b).
Proof.
  destruct (projectPointOntoSegment_along real_laws p a b) as [-> | (u & Hu & ->)].
  - exists 0%R. split; [apply in_unit_real; lra | now rewrite along_real_start].
  - now exists u.
Qed.

(** In real arithmetic the clamped point of an outside point is on an edge,
    hence inside. *)
Lemma clampToTriangle_on_boundary (t : Triangle R) (p : Point2D R) :
  isInside t p = false ->
  on_boundary t (clampToTriangle t p) /\ isInside t (clampToTriangle t p) = true.
Proof.
  intros Hout.
  assert (Hb : on_boundary t (clampToTriangle t p)).
  { unfold on_boundary.
    destruct (clampToTriangle_outside t p Hout) as [-> | [-> | ->]];
      [left | right; left | right; right]; apply projectPointOntoSegment_on_segment. }
  split; [exact Hb | now apply on_boundary_inside].
Qed.

(** *** The round trip on the program's triangle *)

Lemma clamp_unit_identity (v : R) :
  (0 <= v <= 1)%R -> std_max lit_0 (std_min lit_1 v) = v.
Proof.
  intros Hv. unfold std_max, std_min, lit_0, lit_1. real_ops. unfold Rltb.
  destruct (Rlt_dec v 1); destruct (Rlt_dec 0 _); lra.
Qed.

Lemma program_triangle_real :
  newTriangle (F := R) CANVAS_WIDTH CANVAS_HEIGHT =
  mkTriangle (mkPoint2D 350%R 80%R) (mkPoint2D 80%R 470%R) (mkPoint2D 620%R 470%R).
Proof.
  unfold newTriangle, lit_2.
  change (CANVAS_HEIGHT - padding)%Z with 470%Z.
  change (CANVAS_WIDTH - padding)%Z with 620%Z.
  change padding with 80%Z. change CANVAS_WIDTH with 700%Z. real_ops.
  replace (700 / 2)%R with 350%R by lra. reflexivity.
Qed.

Lemma baryToCartesian_inside (bc : BarycentricCoord R) :
  in_unit (performance bc) = true ->
  in_unit (velocity bc) = true ->
  in_unit (adaptability bc) = true ->
  (performance bc + velocity bc + adaptability bc = 1)%R ->
  isInside (newTriangle CANVAS_WIDTH CANVAS_HEIGHT)
    (baryToCartesian (newTriangle CANVAS_WIDTH CANVAS_HEIGHT) bc) = true.
Proof.
  destruct bc as [pf vl ad]. cbn [performance velocity adaptability].
  rewrite !in_unit_real, program_triangle_real. intros Hp Hv Ha Hsum.
  apply isInside_real_same_sign. left.
  unfold signedArea, baryToCartesian.
  cbn [top left right x y performance velocity adaptability]. real_ops.
  assert (Hpf : pf = (1 - vl - ad)%R) by lra. subst pf.
  repeat split; lra.
Qed.

(** In real arithmetic the round trip is the identity. *)
Lemma round_trip_real (bc : BarycentricCoord R) :
  in_unit (performance bc) = true ->
  in_unit (velocity bc) = true ->
  in_unit (adaptability bc) = true ->
  (performance bc + velocity bc + adaptability bc = 1)%R ->
  round_trip_of (newTriangle CANVAS_WIDTH CANVAS_HEIGHT) bc = bc.
Proof.
  intros Hp Hv Ha Hsum.
  pose proof (baryToCartesian_inside bc Hp Hv Ha Hsum) as Hin.
  unfold round_trip_of, cartesianToBary, clampToTriangle. rewrite Hin. cbv zeta.
  rewrite program_triangle_real in *.
  destruct bc as [pf vl ad]. cbn [performance velocity adaptability] in *.
  apply in_unit_real in Hp, Hv, Ha.
  unfold signedArea, baryToCartesian.
  cbn [top left right x y performance velocity adaptability]. real_ops.
  unfold lit_1. real_ops.
  replace ((350 - 620) * (470 - 470) - (80 - 620) * (80 - 470))%R
    with (-210600)%R by ring.
  assert (Harea : Rltb (Rabs (-210600)) (1 / 1000) = false).
  { apply Rltb_false. rewrite Rabs_left by lra. lra. }
  rewrite Harea.
  assert (Hpf : pf = (1 - vl - ad)%R) by lra.
  f_equal;
    match goal with
    | |- std_max _ (std_min _ ?e) = ?v =>
        replace e with v by (rewrite Hpf; field); apply clamp_unit_identity; lra
    end.
Qed.

(** *** The weights of a clamped point *)

(** The three signed areas against a point add up to the signed area of the
    triangle. *)
Lemma signedArea_sum (t : Triangle R) (q : Point2D R) :
  (signedArea q (left t) (right t) + signedArea q (right t) (top t)
   + signedArea q (top t) (left t) = signedArea (top t) (left t) (right t))%R.
Proof. unfold signedArea. real_ops. ring. Qed.

Lemma clampToTriangle_inside_real (t : Triangle R) (p : Point2D R) :
  isInside t (clampToTriangle t p) = true.
Proof.
  destruct (isInside t p) eqn:Hin.
  - unfold clampToTriangle. now rewrite Hin.
  - now apply clampToTriangle_on_boundary.
Qed.
(** *** Every triangle that is not degenerate *)

(** Three numbers not of mixed sign that add up to [S], not zero: the ratio
    of each to [S] lies in [0,1]. *)
Lemma ratio_in_unit (d1 d2 d3 S : R) :
  (d1 + d2 + d3 = S)%R -> (S <> 0)%R ->
  ((d1 <= 0 /\ d2 <= 0 /\ d3 <= 0) \/ (0 <= d1 /\ 0 <= d2 /\ 0 <= d3))%R ->
  (0 <= d1 / S <= 1)%R.
Proof.
  intros Hsum HS Hsign. unfold Rdiv.
  destruct (Rlt_dec 0 S) as [Hpos | Hneg].
  - assert (Hr : (0 < / S)%R) by now apply Rinv_0_lt_compat.
    assert (H1 : (S * / S = 1)%R) by now apply Rinv_r.
    destruct Hsign as [(H1' & H2 & H3) | (H1' & H2 & H3)]; [lra | ].
    split; [nra | ]. assert (d1 <= S)%R by lra. nra.
  - assert (HS' : (S < 0)%R) by lra.
    assert (Hr : (/ S < 0)%R) by now apply Rinv_lt_0_compat.
    assert (H1 : (S * / S = 1)%R) by now apply Rinv_r.
    destruct Hsign as [(H1' & H2 & H3) | (H1' & H2 & H3)]; [ | lra].
    split; [nra | ]. assert (S <= d1)%R by lra. nra.
Qed.

Lemma isInside_real_signs (t : Triangle R) (q : Point2D R) :
  isInside t q = true ->
  let d1 := signedArea q (top t) (left t) in
  let d2 := signedArea q (left t) (right t) in
  let d3 := signedArea q (right t) (top t) in
  ((d1 <= 0 /\ d2 <= 0 /\ d3 <= 0) \/ (0 <= d1 /\ 0 <= d2 /\ 0 <= d3))%R.
Proof.
  cbv zeta. unfold isInside. cbv zeta. unfold lit_0. real_ops.
  intros Hin. apply negb_true_iff, andb_false_iff in Hin.
  destruct Hin as [H | H]; apply orb_false_elim in H as [H H3];
    apply orb_false_elim in H as [H1 H2]; apply Rltb_false in H1, H2, H3;
    [right | left]; repeat split; assumption.
Qed.

Lemma area_guard_real (t : Triangle R) :
  area_guard t = false -> (signedArea (top t) (left t) (right t) <> 0)%R.
Proof.
  unfold area_guard. real_ops. intros H%Rltb_false E. rewrite E, Rabs_R0 in H. lra.
Qed.

(** The weights of a point inside a triangle that is not degenerate are the
    ratios of areas: the clamp to [0,1] changes none. *)
Lemma cartesianToBary_of_inside (t : Triangle R) (q : Point2D R) :
  area_guard t = false -> isInside t q = true ->
  let S := signedArea (top t) (left t) (right t) in
  cartesianToBary t q =
  mkBarycentricCoord (signedArea q (left t) (right t) / S)%R
                     (signedArea q (right t) (top t) / S)%R
                     (signedArea q (top t) (left t) / S)%R.
Proof.
  intros Hg Hin. cbv zeta.
  pose proof (area_guard_real t Hg) as HS.
  pose proof (isInside_real_signs t q Hin) as Hsign. cbv zeta in Hsign.
  pose proof (signedArea_sum t q) as Hsum.
  unfold cartesianToBary, clampToTriangle. rewrite Hin. cbv zeta.
  unfold area_guard in Hg. rewrite Hg. real_ops.
  f_equal; apply clamp_unit_identity.
  - apply (ratio_in_unit _ (signedArea q (right t) (top t)) (signedArea q (top t) (left t)));
      [lra | assumption | tauto].
  - apply (ratio_in_unit _ (signedArea q (top t) (left t)) (signedArea q (left t) (right t)));
      [lra | assumption | tauto].
  - apply (ratio_in_unit _ (signedArea q (left t) (right t)) (signedArea q (right t) (top t)));
      [lra | assumption | tauto].
Qed.

Lemma clampToTriangle_idempotent_real (t : Triangle R) (p : Point2D R) :
  clampToTriangle t (clampToTriangle t p) = clampToTriangle t p.
Proof.
  pose proof (clampToTriangle_inside_real t p) as Hin.
  unfold clampToTriangle at 1. now rewrite Hin.
Qed.

Lemma cartesianToBary_clamped_real (t : Triangle R) (p : Point2D R) :
  cartesianToBary t (clampToTriangle t p) = cartesianToBary t p.
Proof.
  unfold cartesianToBary. now rewrite clampToTriangle_idempotent_real.
Qed.

Lemma cartesianToBary_sum_real (t : Triangle R) (p : Point2D R) :
  area_guard t = false -> weight_sum (cartesianToBary t p) = 1%R.
Proof.
  intros Hg. rewrite <- cartesianToBary_clamped_real.
  rewrite (cartesianToBary_of_inside t _ Hg (clampToTriangle_inside_real t p)).
  pose proof (area_guard_real t Hg) as HS.
  pose proof (signedArea_sum t (clampToTriangle t p)) as Hsum.
  unfold weight_sum. cbn [performance velocity adaptability]. real_ops.
  generalize dependent (clampToTriangle t p). intros q Hsum.
  generalize dependent (signedArea (top t) (left t) (right t)). intros S HS Hsum.
  rewrite <- Hsum. field. now rewrite Hsum.
Qed.

Lemma baryToCartesian_cartesianToBary_real (t : Triangle R) (p : Point2D R) :
  area_guard t = false ->
  baryToCartesian t (cartesianToBary t p) = clampToTriangle t p.
Proof.
  intros Hg. rewrite <- cartesianToBary_clamped_real.
  rewrite (cartesianToBary_of_inside t _ Hg (clampToTriangle_inside_real t p)).
  pose proof (area_guard_real t Hg) as HS.
  destruct (clampToTriangle t p) as [qx qy].
  destruct t as [[tx ty] [lx ly] [rx ry]].
  unfold baryToCartesian, signedArea in *.
  cbn [top left right x y performance velocity adaptability] in *. real_ops.
  f_equal; field; assumption.
Qed.

(** The signed areas of a weighted combination of the vertices. *)
Lemma baryToCartesian_areas (t : Triangle R) (bc : BarycentricCoord R) :
  weight_sum bc = 1%R ->
  let P := baryToCartesian t bc in
  let S := signedArea (top t) (left t) (right t) in
  (signedArea P (left t) (right t) = performance bc * S /\
   signedArea P (right t) (top t) = velocity bc * S /\
   signedArea P (top t) (left t) = adaptability bc * S)%R.
Proof.
  destruct bc as [pf vl ad]. destruct t as [[tx ty] [lx ly] [rx ry]].
  unfold weight_sum, baryToCartesian, signedArea.
  cbn [top left right x y performance velocity adaptability]. real_ops.
  intros Hsum. assert (Hpf : pf = (1 - vl - ad)%R) by lra. subst pf.
  repeat split; ring.
Qed.

Lemma baryToCartesian_inside_real (t : Triangle R) (bc : BarycentricCoord R) :
  bary_in_unit bc = true -> weight_sum bc = 1%R ->
  isInside t (baryToCartesian t bc) = true.
Proof.
  intros Hu Hsum.
  destruct (baryToCartesian_areas t bc Hsum) as (H1 & H2 & H3).
  unfold bary_in_unit in Hu.
  apply andb_prop in Hu as [Hu Ha]. apply andb_prop in Hu as [Hp Hv].
  apply in_unit_real in Hp, Hv, Ha.
  apply isInside_real_same_sign. rewrite H1, H2, H3.
  set (S := signedArea (top t) (left t) (right t)).
  destruct (Rle_dec 0 S); [right | left]; repeat split; nra.
Qed.

(** *** Nearest points *)

Lemma projectPointOntoSegment_degenerate {F} `{Double F} (p a b : Point2D F) :
  edge_guard a b = true -> projectPointOntoSegment p a b = a.
Proof.
  unfold edge_guard, distSq, projectPointOntoSegment. cbv zeta. now intros ->.
Qed.

Lemma projection_nearest_real (p a b : Point2D R) (u : R) :
  edge_guard a b = false -> (0 <= u <= 1)%R ->
  (distSq p (projectPointOntoSegment p a b) <= distSq p (along a b u))%R.
Proof.
  destruct p as [px py], a as [ax ay], b as [bx by_].
  unfold edge_guard, projectPointOntoSegment, distSq, along. cbv zeta.
  cbn [x y]. real_ops. intros Hg Hu. rewrite Hg. cbn [x y].
  apply Rltb_false in Hg.
  set (dx := (bx - ax)%R) in *. set (dy := (by_ - ay)%R) in *.
  set (L := (dx * dx + dy * dy)%R) in *.
  set (N := ((px - ax) * dx + (py - ay) * dy)%R).
  assert (HL : (0 < L)%R) by lra.
  set (s := (N / L)%R).
  assert (Hs : (s * L = N)%R) by (unfold s; field; lra).
  assert (Hdiff : forall v : R,
    ((ax + u * dx - px) * (ax + u * dx - px) + (ay + u * dy - py) * (ay + u * dy - py)
     - ((ax + v * dx - px) * (ax + v * dx - px) + (ay + v * dy - py) * (ay + v * dy - py))
     = L * (u - v) * (u + v - 2 * s))%R).
  { intros v. replace (L * (u - v) * (u + v - 2 * s))%R
      with (L * (u - v) * (u + v) - 2 * (u - v) * (s * L))%R by ring.
    rewrite Hs. unfold L, N. ring. }
  unfold std_max, std_min, lit_0, lit_1. real_ops. unfold Rltb.
  destruct (Rlt_dec s 1) as [Hs1 | Hs1].
  - destruct (Rlt_dec 0 s) as [Hs0 | Hs0].
    + specialize (Hdiff s).
      assert (0 <= L * (u - s) * (u + s - 2 * s))%R.
      { replace (L * (u - s) * (u + s - 2 * s))%R with (L * ((u - s) * (u - s)))%R by ring.
        apply Rmult_le_pos; [lra | apply (Rle_0_sqr (u - s))]. }
      lra.
    + specialize (Hdiff 0%R).
      assert (0 <= L * (u - 0) * (u + 0 - 2 * s))%R.
      { replace (L * (u - 0) * (u + 0 - 2 * s))%R with (L * (u * (u - 2 * s)))%R by ring.
        apply Rmult_le_pos; [lra | apply Rmult_le_pos; lra]. }
      lra.
  - destruct (Rlt_dec 0 1) as [_ | H01]; [ | lra].
    specialize (Hdiff 1%R).
    assert (0 <= L * (u - 1) * (u + 1 - 2 * s))%R.
    { replace (L * (u - 1) * (u + 1 - 2 * s))%R
        with (L * ((1 - u) * (2 * s - u - 1)))%R by ring.
      apply Rmult_le_pos; [lra | apply Rmult_le_pos; lra]. }
    lra.
Qed.

Lemma clampToTriangle_least_real (t : Triangle R) (p : Point2D R) :
  isInside t p = false ->
  let c := clampToTriangle t p in
  (distSq p c <= distSq p (projectPointOntoSegment p (top t) (left t)) /\
   distSq p c <= distSq p (projectPointOntoSegment p (left t) (right t)) /\
   distSq p c <= distSq p (projectPointOntoSegment p (right t) (top t)))%R.
Proof.
  intros Hout. cbv zeta.
  pose proof (clamp_spec_real t p) as Hspec.
  unfold clamp_spec in Hspec. rewrite Hout in Hspec.
  unfold nearest_first in Hspec. cbv zeta in Hspec. real_ops.
  destruct Hspec as [(-> & H2 & H3) | [(-> & H1 & H3) | (-> & H1 & H2)]].
  - apply Rleb_true in H2, H3. lra.
  - apply Rltb_true in H1. apply Rleb_true in H3. lra.
  - apply Rltb_true in H1, H2. lra.
Qed.

(** *** The constructor *)
Lemma newTriangle_real (w h : Z) :
  newTriangle (F := R) w h =
  mkTriangle (mkPoint2D (IZR w / 2) 80)%R (mkPoint2D 80 (IZR h - 80))%R
             (mkPoint2D (IZR w - 80) (IZR h - 80))%R.
Proof.
  unfold newTriangle, lit_2, padding. real_ops. now rewrite !minus_IZR.
Qed.

Lemma newTriangle_area_real (w h : Z) :
  let t := newTriangle (F := R) w h in
  signedArea (top t) (left t) (right t) = (- IZR ((w - 160) * (h - 160)))%R.
Proof.
  cbv zeta. rewrite newTriangle_real. unfold signedArea. cbn [top left right x y].
  real_ops. rewrite mult_IZR, !minus_IZR. field.
Qed.

Lemma newTriangle_area_guard_real (w h : Z) :
  area_guard (newTriangle (F := R) w h) = true <-> (w = 160 \/ h = 160)%Z.
Proof.
  unfold area_guard. rewrite newTriangle_area_real. real_ops.
  rewrite Rltb_true, Rabs_Ropp, <- abs_IZR. split.
  - intros Hlt. destruct (Z.eq_dec ((w - 160) * (h - 160)) 0) as [E | E]; [nia | ].
    exfalso. assert (1 <= Z.abs ((w - 160) * (h - 160)))%Z by lia.
    apply IZR_le in H. lra.
  - intros Hwh. replace ((w - 160) * (h - 160))%Z with 0%Z by nia. simpl. lra.
Qed.

(** *** The marker of a reachable state *)

Lemma program_triangle_guard_real : area_guard (program_triangle (F := R)) = false.
Proof.
  destruct (area_guard program_triangle) eqn:E; [ | reflexivity].
  apply newTriangle_area_guard_real in E. unfold CANVAS_WIDTH, CANVAS_HEIGHT in E. lia.
Qed.

Lemma initial_marker_ok : marker_ok initial.
Proof.
  split; [now left | split].
  - apply (initial_in_unit real_laws).
  - unfold weight_sum, initial. cbn [dotPosition performance velocity adaptability].
    real_ops. lra.
Qed.

Lemma step_marker_ok (s : State R) (c : Call R) : marker_ok s -> marker_ok (step s c).
Proof.
  intros (Hk & Hu & Hsum).
  assert (Hk' : triangle_known (step s c)) by (apply (run_triangle_known [c]), Hk).
  split; [exact Hk' | ].
  assert (Hnew : forall t p, triangle s = Some t ->
            bary_in_unit (cartesianToBary t p) = true /\
            weight_sum (cartesianToBary t p) = 1%R).
  { intros t p Ht. split; [apply (cartesianToBary_in_unit real_laws) | ].
    destruct Hk as [Hk | Hk]; [congruence | ].
    assert (t = program_triangle) by congruence. subst t.
    apply cartesianToBary_sum_real, program_triangle_guard_real. }
  destruct c as [ | | mx my | mx my | ]; cbn [step]; try (split; assumption).
  - unfold handleMouseDown. destruct (triangle s) as [t | ] eqn:Ht; [ | now split].
    cbv zeta. destruct (dlt _ (of_int 15)); [now split | ].
    destruct (isInside t _); [ | now split].
    cbn [dotPosition]. now apply Hnew.
  - unfold handleMouseMove. destruct (triangle s) as [t | ] eqn:Ht; [ | now split].
    destruct (negb _); [now split | ]. cbn [dotPosition]. now apply Hnew.
Qed.

Lemma run_marker_ok (calls : list (Call R)) (s : State R) :
  marker_ok s -> marker_ok (run calls s).
Proof.
  revert s. induction calls as [ | c calls IH]; intros s Hs; [exact Hs | ].
  cbn [run fold_left]. apply IH, step_marker_ok, Hs.
Qed.


(** *** The sample triangle *)

Lemma sample_triangle_guard_real : area_guard sample_triangle = false.
Proof.
  unfold area_guard, sample_triangle, signedArea. cbn [top left right x y]. real_ops.
  apply Rltb_false. replace ((4 - 0) * (3 - 0) - (0 - 0) * (0 - 0))%R with 12%R by ring.
  rewrite Rabs_pos_eq; lra.
Qed.

Lemma sample_triangle_edges_real :
  edge_guard (top sample_triangle) (left sample_triangle) = false /\
  edge_guard (left sample_triangle) (right sample_triangle) = false /\
  edge_guard (right sample_triangle) (top sample_triangle) = false.
Proof.
  unfold edge_guard, distSq, sample_triangle. cbn [top left right x y]. real_ops.
  repeat split; apply Rltb_false; lra.
Qed.

(** The point (5,5) is outside the sample triangle: its signed area against
    the edge top-left is 20, against the edge left-right -23. *)
Lemma sample_outside_real : isInside sample_triangle (mkPoint2D 5 5)%R = false.
Proof.
  apply isInside_false_iff.
  unfold signedArea, sample_triangle, lit_0. cbn [top left right x y]. real_ops.
  split; apply orb_true_iff; left; apply orb_true_iff.
  - right. apply Rltb_true. lra.
  - left. apply Rltb_true. lra.
Qed.

(** On reals a press on the top vertex of the program's triangle is taken:
    a vertex is on the boundary. *)
Lemma press_top_taken_real (s : State R) :
  press_taken program_triangle s 350%R 80%R = true.
Proof.
  unfold press_taken. apply orb_true_iff. right.
  apply on_boundary_inside. left. exists 0%R. split; [apply in_unit_real; lra | ].
  unfold program_triangle. rewrite program_triangle_real, along_real_start. reflexivity.
Qed.
(** ** The exported interface *)

(** C10.  [handleMouseUp] (the specification's pointerUp) writes the dragging
    flag and nothing else: in every state, whether a triangle exists or not
    and whether a drag was in progress or not, the triangle and the stored
    barycentric position are the ones before the call, and the flag is false
    afterwards. *)
Theorem handleMouseUp_frame :
  forall (F : Type) (D : Double F) (s : State F),
    triangle (handleMouseUp s) = triangle s /\
    dotPosition (handleMouseUp s) = dotPosition s /\
    isDragging (handleMouseUp s) = false.
Proof.
  intros F D s. unfold handleMouseUp.
  cbn [triangle dotPosition isDragging].
  repeat split.
Qed.

(** C8, as stated, fails: before [init] the three weight getters return the
    stored weights 0.33, 0.33 and 0.34, none of which is 0. *)
Lemma weight_getters_not_zero_before_init :
  triangle (initial (F := float)) = None /\
  getPerformance (initial (F := float)) = 0.33%float /\
  getVelocity (initial (F := float)) = 0.33%float /\
  getAdaptability (initial (F := float)) = 0.34%float /\
  deq (getPerformance (initial (F := float))) lit_0 = false /\
  deq (getVelocity (initial (F := float))) lit_0 = false /\
  deq (getAdaptability (initial (F := float))) lit_0 = false.
Proof.
  unfold getPerformance, getVelocity, getAdaptability, initial.
  cbn [triangle dotPosition performance velocity adaptability].
  repeat split.
Qed.

(** C8, amended.  Without a triangle, [getDotX], [getDotY] and the six vertex
    getters return 0; the three weight getters have no such guard and return
    the stored barycentric components. *)
Theorem getters_without_triangle :
  forall (F : Type) (D : Double F) (s : State F),
    triangle s = None ->
    (getDotX s = lit_0 /\ getDotY s = lit_0) /\
    (getTriangleTopX s = lit_0 /\ getTriangleTopY s = lit_0 /\
     getTriangleLeftX s = lit_0 /\ getTriangleLeftY s = lit_0 /\
     getTriangleRightX s = lit_0 /\ getTriangleRightY s = lit_0) /\
    (getPerformance s = performance (dotPosition s) /\
     getVelocity s = velocity (dotPosition s) /\
     getAdaptability s = adaptability (dotPosition s)).
Proof.
  intros F D s Hnull.
  unfold getDotX, getDotY, getTriangleTopX, getTriangleTopY, getTriangleLeftX,
    getTriangleLeftY, getTriangleRightX, getTriangleRightY, getPerformance,
    getVelocity, getAdaptability.
  rewrite Hnull. repeat split.
Qed.

(** The initial state, on binary64. *)
Lemma getters_without_triangle_witness :
  triangle (initial (F := float)) = None /\
  getDotX (initial (F := float)) = 0%float /\
  getPerformance (initial (F := float)) = 0.33%float.
Proof.
  split; [reflexivity | ].
  destruct (getters_without_triangle float Double_float initial eq_refl)
    as [[HX _] [_ [HP _]]].
  split; [exact HX | exact HP].
Defined.

(** C5.  [handleMouseDown] (the specification's pointerDown).  Without a
    triangle it changes nothing.  With one: when the distance from the pointer
    to the marker's cartesian position is below 15 it sets the dragging flag
    and keeps the marker; otherwise, when the pointer is inside the triangle,
    it moves the marker to [cartesianToBary] of the pointer and sets the flag;
    otherwise it changes nothing. *)
Theorem handleMouseDown_cases :
  forall (F : Type) (D : Double F) (s : State F) (mouseX mouseY : F),
    let s' := handleMouseDown mouseX mouseY s in
    let mousePos := mkPoint2D mouseX mouseY in
    match triangle s with
    | None => s' = s
    | Some t =>
        if dlt (distance mousePos (baryToCartesian t (dotPosition s))) (of_int 15)
        then isDragging s' = true /\ dotPosition s' = dotPosition s /\
             triangle s' = triangle s
        else if isInside t mousePos
        then dotPosition s' = cartesianToBary t mousePos /\ isDragging s' = true /\
             triangle s' = triangle s
        else s' = s
    end.
Proof.
  intros F D s mouseX mouseY. cbv zeta. unfold handleMouseDown, distance.
  destruct (triangle s) as [t | ] eqn:Ht; [ | reflexivity].
  cbv zeta. cbn [x y].
  destruct (dlt _ (of_int 15)).
  - cbn [triangle dotPosition isDragging]. repeat split.
  - destruct (isInside t _).
    + cbn [triangle dotPosition isDragging]. repeat split.
    + reflexivity.
Qed.

(** The three branches on binary64, after [init]: the marker sits at
    (352.7, 341.3); a press 4.4 pixels away grabs it where it is, a press at
    (350,200) inside the triangle moves it there, a press at (10,10) outside
    is ignored. *)
Example handleMouseDown_branches :
  let s := init (initial (F := float)) in
  (handleMouseDown 355 345 s)%float =
    mkState (triangle s) (dotPosition s) true /\
  (handleMouseDown 350 200 s)%float =
    mkState (triangle s)
      (mkBarycentricCoord 0.69230769230769229 0.15384615384615385
         0.15384615384615385)%float true /\
  (handleMouseDown 10 10 s)%float = s /\
  (handleMouseDown 355 345 initial)%float = initial.
Proof.
  cbv zeta. repeat split; vm_compute; reflexivity.
Qed.

(** C9.  On binary64, with the canvas 700 by 550, the vertices are (350,80),
    (80,470) and (620,470), and after [init], a press at (350,80) and a
    release, the marker is at (350,80) with weights (1,0,0), exactly. *)
Theorem press_on_top_vertex :
  let t := newTriangle (F := float) CANVAS_WIDTH CANVAS_HEIGHT in
  let s := run [CallInit; CallMouseDown 350%float 80%float; CallMouseUp] initial in
  (top t = mkPoint2D 350%float 80%float /\
   left t = mkPoint2D 80%float 470%float /\
   right t = mkPoint2D 620%float 470%float) /\
  (getDotX s = 350%float /\ getDotY s = 80%float) /\
  (getPerformance s = 1%float /\ getVelocity s = 0%float /\
   getAdaptability s = 0%float) /\
  isDragging s = false.
Proof.
  cbv zeta. split; [ | split; [ | split]].
  - repeat split.
  - split; vm_compute; reflexivity.
  - repeat split; vm_compute; reflexivity.
  - vm_compute; reflexivity.
Qed.

(** C7.  On binary64, after any sequence of calls of the exported interface
    from the initial state, with any arguments (NaN and infinities included),
    each stored weight [w] satisfies [0 <= w] and [w <= 1]. *)
Theorem marker_weights_in_unit :
  forall calls : list (Call float),
    let bc := dotPosition (run calls initial) in
    ((0 <=? performance bc)%float = true /\ (performance bc <=? 1)%float = true) /\
    ((0 <=? velocity bc)%float = true /\ (velocity bc <=? 1)%float = true) /\
    ((0 <=? adaptability bc)%float = true /\ (adaptability bc <=? 1)%float = true).
Proof.
  intros calls bc.
  pose proof (run_in_unit float_laws calls initial (initial_in_unit float_laws)) as Hu.
  fold bc in Hu. unfold bary_in_unit, in_unit in Hu.
  apply andb_prop in Hu as [Hu Ha]. apply andb_prop in Hu as [Hp Hv].
  apply andb_prop in Hp as [Hp0 Hp1].
  apply andb_prop in Hv as [Hv0 Hv1].
  apply andb_prop in Ha as [Ha0 Ha1].
  repeat split; assumption.
Qed.

(** C4.  On binary64, for every triangle (degenerate ones included) and every
    point, [cartesianToBary] never divides by zero: the run in which each
    division is watched completes with the result of the source's method; and
    each component of that result lies in [0,1]. *)
Theorem cartesianToBary_safe :
  forall (t : Triangle float) (point : Point2D float),
    cartesianToBary_checked t point = Some (cartesianToBary t point) /\
    bary_in_unit (cartesianToBary t point) = true.
Proof.
  intros t point. split.
  - apply cartesianToBary_checked_ok, float_laws.
  - apply cartesianToBary_in_unit, float_laws.
Qed.

(** A degenerate triangle, of signed area 0.0001 and edges of squared length
    0.0001 and 0.0002: the area is replaced by 1.0, the projection onto the
    first edge is its start, and the conversion completes within [0,1]. *)
Lemma cartesianToBary_safe_degenerate :
  let t : Triangle float :=
    mkTriangle (mkPoint2D 0 0)%float (mkPoint2D 0.01 0)%float
      (mkPoint2D 0 0.01)%float in
  let p := mkPoint2D 5%float 5%float in
  (abs (signedArea (top t) (left t) (right t)) <? 0.001)%float = true /\
  projectPointOntoSegment p (top t) (left t) = top t /\
  cartesianToBary_checked t p = Some (cartesianToBary t p) /\
  bary_in_unit (cartesianToBary t p) = true.
Proof.
  cbv zeta. split; [vm_compute; reflexivity | ].
  split; [vm_compute; reflexivity | ].
  apply cartesianToBary_safe.
Defined.

(** ** The geometry *)

(** Every triple of whole percentages, on binary64: the round trip returns
    each weight to within 1e-15. *)
Lemma round_trip_percentages_float :
  forallb (fun i =>
    forallb (fun j =>
      weights_close 1e-15%float
        (round_trip_of (newTriangle CANVAS_WIDTH CANVAS_HEIGHT) (percentages i j))
        (percentages i j))
      (seq 0 (101 - i)))
    (seq 0 101) = true.
Proof. vm_compute. reflexivity. Qed.



(** At triples that doubles represent exactly, the round trip on binary64 is
    exact too. *)
Example round_trip_float_samples :
  let rt := round_trip_of (newTriangle (F := float) CANVAS_WIDTH CANVAS_HEIGHT) in
  rt (mkBarycentricCoord 1 0 0)%float = (mkBarycentricCoord 1 0 0)%float /\
  rt (mkBarycentricCoord 0 1 0)%float = (mkBarycentricCoord 0 1 0)%float /\
  rt (mkBarycentricCoord 0 0 1)%float = (mkBarycentricCoord 0 0 1)%float /\
  rt (mkBarycentricCoord 0.5 0.25 0.25)%float = (mkBarycentricCoord 0.5 0.25 0.25)%float /\
  rt (mkBarycentricCoord 0.5 0.5 0)%float = (mkBarycentricCoord 0.5 0.5 0)%float.
Proof.
  cbv zeta. repeat split; vm_compute; reflexivity.
Qed.

(** C2.  [clampToTriangle] returns an inside point unchanged; for a point
    that is not inside it returns the projection onto the edge top-left,
    left-right or right-top whose squared distance to the point is least, the
    earlier edge winning a tie.  This holds in real arithmetic for every
    triangle, and on binary64 for the program's triangle at every point (NaN
    and infinite coordinates included). *)
Theorem clampToTriangle_correct :
  (forall (t : Triangle R) (p : Point2D R), clamp_spec t p) /\
  (forall p : Point2D float, clamp_spec (newTriangle CANVAS_WIDTH CANVAS_HEIGHT) p).
Proof.
  split.
  - exact clamp_spec_real.
  - intros p. apply clamp_spec_float, program_triangle_ok.
Qed.

(** On binary64: a point inside comes back unchanged; below the triangle the
    nearest projection is on the edge left-right, to the right of it on the
    edge right-top; above the top vertex the projections on the first and the
    third edge are both the vertex, at squared distance 6400, and the first is
    returned. *)
Example clampToTriangle_samples :
  let t := newTriangle (F := float) CANVAS_WIDTH CANVAS_HEIGHT in
  clampToTriangle t (mkPoint2D 350 300)%float = (mkPoint2D 350 300)%float /\
  clampToTriangle t (mkPoint2D 350 600)%float = (mkPoint2D 350 470)%float /\
  clampToTriangle t (mkPoint2D 600 200)%float =
    (mkPoint2D 487.15999999999997 278.12)%float /\
  (distSq (mkPoint2D 350 0)%float
     (projectPointOntoSegment (mkPoint2D 350 0)%float (top t) (left t)) = 6400%float /\
   distSq (mkPoint2D 350 0)%float
     (projectPointOntoSegment (mkPoint2D 350 0)%float (right t) (top t)) = 6400%float /\
   clampToTriangle t (mkPoint2D 350 0)%float = top t).
Proof.
  cbv zeta. repeat split; vm_compute; reflexivity.
Qed.

(** C3, as stated, fails on binary64: (100,100) is outside the program's
    triangle, its clamped point is the rounded projection onto the edge
    top-left, and that point is classified outside: its signed area against
    that edge is a rounding error above zero, the other two are negative. *)
Lemma clamped_point_not_inside :
  let t := newTriangle (F := float) CANVAS_WIDTH CANVAS_HEIGHT in
  let p := mkPoint2D 100%float 100%float in
  let q := clampToTriangle t p in
  isInside t p = false /\
  q = mkPoint2D 259.63999999999999%float 210.52000000000001%float /\
  signedArea q (top t) (left t) = 1.4551915228366852e-11%float /\
  signedArea q (left t) (right t) = (-140119.20000000001)%float /\
  signedArea q (right t) (top t) = (-70480.800000000017)%float /\
  isInside t q = false.
Proof.
  cbv zeta. repeat split; vm_compute; reflexivity.
Qed.

(** C3, amended.  For a point that is not inside, [clampToTriangle] returns
    a point computed for one of the three edges: the edge's start, or the
    point at a parameter in [0,1] along it; this on binary64, for every
    triangle.  In real arithmetic that point is a point of the edge, and it is
    inside. *)
Theorem clampToTriangle_on_edge :
  (forall (t : Triangle float) (p : Point2D float),
     isInside t p = false -> edge_point t (clampToTriangle t p)) /\
  (forall (t : Triangle R) (p : Point2D R),
     isInside t p = false ->
     on_boundary t (clampToTriangle t p) /\ isInside t (clampToTriangle t p) = true).
Proof.
  split.
  - intros t p. apply (clampToTriangle_edge_point float_laws).
  - exact clampToTriangle_on_boundary.
Qed.

(** On reals too (100,100) is outside: its signed area against the edge
    top-left is 92100, against the edge left-right -199800. *)
Lemma outside_real_100_100 :
  isInside (newTriangle (F := R) CANVAS_WIDTH CANVAS_HEIGHT) (mkPoint2D 100%R 100%R) = false.
Proof.
  rewrite program_triangle_real. apply isInside_false_iff.
  unfold signedArea, lit_0. cbn [top left right x y]. real_ops.
  split; apply orb_true_iff.
  - left. apply orb_true_iff. right. apply Rltb_true. lra.
  - left. apply orb_true_iff. left. apply Rltb_true. lra.
Defined.

(** The point (100,100), under both interpretations. *)
Lemma clampToTriangle_on_edge_witness :
  edge_point (newTriangle (F := float) CANVAS_WIDTH CANVAS_HEIGHT)
    (clampToTriangle (newTriangle CANVAS_WIDTH CANVAS_HEIGHT)
       (mkPoint2D 100%float 100%float)) /\
  isInside (newTriangle (F := R) CANVAS_WIDTH CANVAS_HEIGHT)
    (clampToTriangle (newTriangle CANVAS_WIDTH CANVAS_HEIGHT)
       (mkPoint2D 100%R 100%R)) = true.
Proof.
  destruct clampToTriangle_on_edge as [Hfloat Hreal]. split.
  - apply Hfloat. vm_compute. reflexivity.
  - apply Hreal. exact outside_real_100_100.
Defined.

(** The sample points are points of the edges. *)
Lemma samples_on_boundary (k : Z) :
  let t := newTriangle (F := R) CANVAS_WIDTH CANVAS_HEIGHT in
  ((0 <= k <= 480)%Z -> on_boundary t (top_left_sample k)) /\
  ((0 <= k <= 8640)%Z -> on_boundary t (left_right_sample k)) /\
  ((0 <= k <= 480)%Z -> on_boundary t (right_top_sample k)).
Proof.
  cbv zeta. rewrite program_triangle_real.
  unfold on_boundary, on_segment, along, top_left_sample, left_right_sample,
    right_top_sample, sixteenths.
  cbn [top left right x y]. real_ops.
  repeat split; intros [Hk0 Hk1]; apply IZR_le in Hk0, Hk1.
  - left. exists (IZR k / 480)%R. split.
    + apply in_unit_real. lra.
    + rewrite minus_IZR, plus_IZR, !mult_IZR. f_equal; field.
  - right; left. exists (IZR k / 8640)%R. split.
    + apply in_unit_real. lra.
    + rewrite plus_IZR. f_equal; field.
  - right; right. exists (IZR k / 480)%R. split.
    + apply in_unit_real. lra.
    + rewrite !minus_IZR, !mult_IZR. f_equal; field.
Qed.

(** On binary64 each of them is classified inside. *)
Lemma samples_inside_float :
  let t := newTriangle (F := float) CANVAS_WIDTH CANVAS_HEIGHT in
  forallb (fun k => isInside t (top_left_sample (Z.of_nat k))) (seq 0 (Z.to_nat 481))
  && forallb (fun k => isInside t (left_right_sample (Z.of_nat k))) (seq 0 (Z.to_nat 8641))
  && forallb (fun k => isInside t (right_top_sample (Z.of_nat k))) (seq 0 (Z.to_nat 481))
  = true.
Proof. vm_compute. reflexivity. Qed.



(** * Further properties of the program *)

(** ** Weights and positions, in exact arithmetic *)

















(** ** Sequences of calls *)

(** X10. Whatever the host page has called so far, in binary64 the vertex
    getters return one of two things: six zeros (no triangle), or the vertices
    (350, 80), (80, 470), (620, 470) of the 700 by 550 canvas. No call moves
    a vertex. *)
Theorem vertex_getters_values (calls : list (Call float)) :
  let s := run calls initial in
  (triangle s = None /\
   getTriangleTopX s = 0%float /\ getTriangleTopY s = 0%float /\
   getTriangleLeftX s = 0%float /\ getTriangleLeftY s = 0%float /\
   getTriangleRightX s = 0%float /\ getTriangleRightY s = 0%float) \/
  (triangle s = Some program_triangle /\
   getTriangleTopX s = 350%float /\ getTriangleTopY s = 80%float /\
   getTriangleLeftX s = 80%float /\ getTriangleLeftY s = 470%float /\
   getTriangleRightX s = 620%float /\ getTriangleRightY s = 470%float).
Proof.
  cbv zeta.
  destruct (run_triangle_known calls initial (or_introl eq_refl)) as [Hs | Hs];
    [left | right]; (split; [exact Hs | ]);
    unfold getTriangleTopX, getTriangleTopY, getTriangleLeftX, getTriangleLeftY,
      getTriangleRightX, getTriangleRightY; rewrite Hs;
    repeat split; vm_compute; reflexivity.
Qed.

(** X11. Without a triangle (before [init], after [cleanup]) no sequence of
    calls other than [init] creates one or changes the weights: presses,
    moves, releases and [cleanup] leave the marker where it was. *)
Theorem nothing_before_init (F : Type) (D : Double F)
  (calls : list (Call F)) (s : State F) :
  triangle s = None -> forallb (fun c => negb (is_init c)) calls = true ->
  triangle (run calls s) = None /\ dotPosition (run calls s) = dotPosition s.
Proof.
  revert s. induction calls as [ | c calls IH]; intros s Hnull Hcalls; [now split | ].
  cbn [forallb] in Hcalls. apply andb_prop in Hcalls as [Hc Hcalls].
  apply negb_true_iff in Hc.
  destruct (step_without_triangle s c Hnull Hc) as [Ht Hd].
  cbn [run fold_left]. destruct (IH (step s c) Ht Hcalls) as [Ht' Hd'].
  split; [exact Ht' | exact (eq_trans Hd' Hd)].
Qed.

Lemma nothing_before_init_witness :
  let calls := [CallMouseDown 350 80; CallMouseMove 100 100; CallMouseUp;
                CallCleanup; CallMouseDown 300 300]%float in
  triangle (run calls initial) = None /\
  dotPosition (run calls initial) = dotPosition (initial (F := float)).
Proof. cbv zeta. apply nothing_before_init; reflexivity. Defined.

(** X12. A drag gesture: with a triangle in place, a press that is taken
    (within 15 of the marker, or inside the triangle), then any moves, then a
    release, leave the weights at those of the last pointer position, the
    marker idle and the triangle as it was. Only the last position counts. *)
Theorem drag_gesture (F : Type) (D : Double F) (s : State F) (t : Triangle F)
  (mouseX mouseY : F) (ms : list (F * F)) (m : F * F) :
  triangle s = Some t -> press_taken t s mouseX mouseY = true ->
  let s' := run (CallMouseDown mouseX mouseY :: moves (ms ++ [m]) ++ [CallMouseUp]) s in
  dotPosition s' = cartesianToBary t (mkPoint2D (fst m) (snd m)) /\
  isDragging s' = false /\ triangle s' = Some t.
Proof.
  intros Ht Hp. cbv zeta.
  destruct (handleMouseDown_taken s t mouseX mouseY Ht Hp) as [Ht1 Hd1].
  destruct (run_moves_dragging (ms ++ [m]) _ t Ht1 Hd1) as (Ht2 & _ & Hpos).
  rewrite rev_app_distr in Hpos. cbn [rev app] in Hpos.
  unfold run in *. cbn [fold_left step]. rewrite fold_left_app. cbn [fold_left step].
  unfold handleMouseUp. cbn [dotPosition isDragging triangle]. auto.
Qed.

(** A press inside the program's triangle, dragged to (100,100). *)
Lemma drag_gesture_witness :
  let s := init (initial (F := float)) in
  let s' := run (CallMouseDown 350 200
                 :: moves ([(300, 300)] ++ [(100, 100)]) ++ [CallMouseUp])%float s in
  dotPosition s' = cartesianToBary program_triangle (mkPoint2D 100 100)%float /\
  isDragging s' = false /\ triangle s' = Some program_triangle.
Proof.
  cbv zeta.
  apply (drag_gesture float Double_float (init initial) program_triangle
           350%float 200%float [(300, 300)%float] (100, 100)%float).
  - reflexivity.
  - vm_compute. reflexivity.
Defined.

(** X13. Without a drag nothing moves: after a release, and after a press
    that is not taken (neither within 15 of the marker nor inside the
    triangle), any sequence of pointer moves leaves the whole state as it
    was. *)
Theorem no_drag_no_movement (F : Type) (D : Double F) (s : State F)
  (ms : list (F * F)) :
  run (CallMouseUp :: moves ms) s = handleMouseUp s /\
  (forall (t : Triangle F) (mouseX mouseY : F),
      triangle s = Some t -> isDragging s = false ->
      press_taken t s mouseX mouseY = false ->
      run (CallMouseDown mouseX mouseY :: moves ms) s = s).
Proof.
  split.
  - apply (run_moves_idle ms (handleMouseUp s)). reflexivity.
  - intros t mouseX mouseY Ht Hidle Hp. unfold run. cbn [fold_left step].
    rewrite (handleMouseDown_not_taken s t mouseX mouseY Ht Hp).
    apply run_moves_idle, Hidle.
Qed.

(** A press in the corner of the canvas, then moves across the triangle. *)
Lemma no_drag_no_movement_witness :
  let s := init (initial (F := float)) in
  run (CallMouseDown 10 10 :: moves [(350, 200); (300, 300)])%float s = s.
Proof.
  cbv zeta.
  apply (proj2 (no_drag_no_movement float Double_float (init initial)
                  [(350, 200); (300, 300)]%float) program_triangle).
  - reflexivity.
  - reflexivity.
  - vm_compute. reflexivity.
Defined.




(** ** Binary64 edge cases *)

(** X16. In binary64, for every triangle, a pointer position with a NaN
    coordinate is not rejected: a press with it is taken as a press inside
    the triangle, and so is a move during a drag; both set all three weights
    to 1, which no point of the plane has. *)
Theorem nan_pointer (s : State float) (t : Triangle float) (mouseX mouseY : float) :
  triangle s = Some t -> fnan mouseX || fnan mouseY = true ->
  handleMouseDown mouseX mouseY s
  = mkState (Some t) (mkBarycentricCoord lit_1 lit_1 lit_1) true /\
  (isDragging s = true ->
   handleMouseMove mouseX mouseY s
   = mkState (Some t) (mkBarycentricCoord lit_1 lit_1 lit_1) true).
Proof.
  intros Ht Hnan. split.
  - pose proof (distance_nan (mkPoint2D mouseX mouseY)
                  (baryToCartesian t (dotPosition s)) (of_int 15) Hnan) as Hdist.
    unfold distance in Hdist. cbn [x y] in Hdist.
    unfold handleMouseDown. rewrite Ht. cbv zeta. cbn [x y dlt Double_float].
    rewrite Hdist.
    rewrite (isInside_nan t (mkPoint2D mouseX mouseY) Hnan).
    now rewrite (cartesianToBary_nan t (mkPoint2D mouseX mouseY) Hnan).
  - intros Hd. unfold handleMouseMove. rewrite Ht, Hd. cbn [negb]. cbv zeta.
    now rewrite (cartesianToBary_nan t (mkPoint2D mouseX mouseY) Hnan).
Qed.

Lemma nan_pointer_witness :
  handleMouseDown nan 5%float (init initial)
  = mkState (Some program_triangle) (mkBarycentricCoord lit_1 lit_1 lit_1) true.
Proof.
  apply (proj1 (nan_pointer (init initial) program_triangle nan 5%float
                  eq_refl eq_refl)).
Defined.

(** X17. In binary64, whatever the host page calls, with finite or
    non-finite arguments, [getDotX] and [getDotY] return a number that is at
    least 0: never a NaN, never a negative coordinate. *)
Theorem marker_position_nonneg (calls : list (Call float)) :
  let s := run calls initial in
  (0 <=? getDotX s)%float = true /\ (0 <=? getDotY s)%float = true.
Proof.
  cbv zeta.
  pose proof (run_in_unit float_laws calls initial (initial_in_unit float_laws)) as Hu.
  unfold getDotX, getDotY.
  destruct (run_triangle_known calls initial (or_introl eq_refl)) as [-> | ->].
  - split; vm_compute; reflexivity.
  - destruct (dotPosition (run calls initial)) as [a b c].
    unfold bary_in_unit in Hu. cbn [performance velocity adaptability] in Hu.
    apply andb_prop in Hu as [Hu Hc]. apply andb_prop in Hu as [Ha Hb].
    unfold baryToCartesian. cbn [x y performance velocity adaptability].
    split; apply weighted_sum_nonneg; try assumption; vm_compute; reflexivity.
Qed.
